(** * gomelon: the managed server, its method router and component dispatch

    A shallow embedding of [server.go] of goburrow/gomelon: the method-aware
    router ([DefaultServerHandler], [defaultHTTPHandler]), the component
    dispatch of [ServerEnvironment], the multi-connector [DefaultServer] and
    the [ServerCommand] that sequences a run.

    Go strings are byte strings and are modelled by [string]; Go maps by
    [gmap]; a [*defaultHTTPHandler] by an address into a store of nodes, so
    that the router's table and the path matcher share one node per pattern
    as they do in the source. *)

From stdpp Require Import gmap strings list.
From Stdlib Require Import Ascii.
From Stdlib Require String.

Local Open Scope nat_scope.

(** ** Go calls that may panic *)

Inductive Result (A : Type) : Type :=
  | Ok (a : A)
  | Panic (msg : string).
Arguments Ok {A} a.
Arguments Panic {A} msg.

(** A Go [error] value is represented by its message; [None] is [nil]. *)
Definition error := string.

(** Whether the last byte of a string is a slash. *)
Definition ends_with_slash (s : string) : bool :=
  match String.get (String.length s - 1) s with
  | Some c => Ascii.eqb c "/"
  | None => false
  end.

(** ** The part of net/http the router relies on *)

Module http.

(** [r.Method] and [r.URL.Path] of an [*http.Request]. *)
Record Request := { Method : string; Path : string }.

Definition StatusNotFound : nat := 404.
Definition StatusMethodNotAllowed : nat := 405.

(** What a handler does with a request: it replies by [http.Error] with a
    message and a status code, or it passes the request on to the
    [ServeHTTP] of a handler of type [H] supplied by the application. *)
Inductive Reply (H : Type) : Type :=
  | Error (msg : string) (code : nat)
  | Delegate (h : H).
Arguments Error {H} msg code.
Arguments Delegate {H} h.

(** [http.ServeMux] belongs to the Go library, not to gomelon.  The router
    uses two of its operations: [Handle], which registers a handler under a
    pattern or panics, and the resolution of a request to the handler of
    the pattern that matches its path ([Handler]), which finds nothing
    when no pattern matches.  [N] is the type of the registered handlers. *)
Class PathMatcher (M N : Type) : Type := {
  NewServeMux : M;
  mux_Handle : M -> string -> N -> Result M;
  mux_Handler : M -> Request -> option N
}.

Definition NotFound {H : Type} : Reply H :=
  Error "404 page not found" StatusNotFound.

(** ** A path matcher after net/http's own

    A table from patterns to handlers.  A pattern that ends in a slash
    names a subtree and matches every path it is a prefix of; any other
    pattern matches only itself; the longest matching pattern wins.  An
    empty pattern and a pattern that is already in the table are refused.
    The redirections of net/http (paths that are not canonical, a subtree
    asked for without its slash) and its patterns with a host are left
    out.  The examples of this development run on this matcher. *)

Definition pathMatch (pattern path : string) : bool :=
  let n := String.length pattern in
  if n =? 0 then false
  else if negb (ends_with_slash pattern) then String.eqb pattern path
  else (n <=? String.length path) && String.eqb (String.substring 0 n path) pattern.

Definition longer {N : Type} (k : string) (v : N) (acc : option (string * N))
  : option (string * N) :=
  match acc with
  | None => Some (k, v)
  | Some (k', _) => if String.length k' <? String.length k then Some (k, v) else acc
  end.

Definition table_match {N : Type} (m : gmap string N) (path : string)
  : option (string * N) :=
  map_fold (fun k v acc => if pathMatch k path then longer k v acc else acc) None m.

Definition table_Handle {N : Type} (m : gmap string N) (pattern : string) (h : N)
  : Result (gmap string N) :=
  if String.eqb pattern "" then Panic ("http: invalid pattern " +:+ pattern)
  else match m !! pattern with
       | Some _ => Panic ("http: multiple registrations for " +:+ pattern)
       | None => Ok (<[pattern := h]> m)
       end.

Definition TableMux (N : Type) : PathMatcher (gmap string N) N := {|
  NewServeMux := ∅;
  mux_Handle := table_Handle;
  mux_Handler := fun m r => snd <$> table_match m (Path r)
|}.

End http.

(** ** The method router *)

Section Router.

(** [Handler] is the type of the handlers the application registers
    ([http.Handler] values); [M] is the path matcher. *)
Context {Handler M : Type} `{PM : http.PathMatcher M nat}.

(** [defaultHTTPHandler]: the handlers of one pattern, by HTTP method. *)
Record defaultHTTPHandler : Type := {
  handlers : gmap string Handler
}.

(** [DefaultServerHandler].  [sh_handlers] is the field [handlers] of the
    source (pattern to [*defaultHTTPHandler]); [nodes] is the store the
    pointers refer to: address [l] holds [nodes !! l]. *)
Record DefaultServerHandler : Type := {
  ServeMux : M;
  pathPrefix : string;
  sh_handlers : gmap string nat;
  nodes : list defaultHTTPHandler
}.

(** [newHTTPHandler] allocates a node with an empty method table. *)
Definition newHTTPHandler (st : list defaultHTTPHandler)
  : nat * list defaultHTTPHandler :=
  (length st, st ++ [ {| handlers := ∅ |} ]).

Definition NewServerHandler : DefaultServerHandler := {|
  ServeMux := http.NewServeMux;
  pathPrefix := "";
  sh_handlers := ∅;
  nodes := []
|}.

Definition nil_dereference : string :=
  "runtime error: invalid memory address or nil pointer dereference".

(** [defaultHTTPHandler.ServeHTTP] *)
Definition defaultHTTPHandler_ServeHTTP (handler : defaultHTTPHandler) (r : http.Request)
  : http.Reply Handler :=
  match handlers handler !! http.Method r with
  | None => http.Error "405 method not allowed" http.StatusMethodNotAllowed
  | Some h => http.Delegate h
  end.

(** [DefaultServerHandler.ServeHTTP]: the path matcher resolves the request
    and calls the [ServeHTTP] of what it finds, or replies not found. *)
Definition ServeHTTP (serverHandler : DefaultServerHandler) (r : http.Request)
  : Result (http.Reply Handler) :=
  match http.mux_Handler (ServeMux serverHandler) r with
  | None => Ok http.NotFound
  | Some l =>
      match nodes serverHandler !! l with
      | Some h => Ok (defaultHTTPHandler_ServeHTTP h r)
      | None => Panic nil_dereference
      end
  end.

(** [DefaultServerHandler.Handle] *)
Definition Handle (method pattern : string) (handler : Handler)
    (serverHandler : DefaultServerHandler) : Result DefaultServerHandler :=
  let pattern := pathPrefix serverHandler +:+ pattern in
  match sh_handlers serverHandler !! pattern with
  | Some l =>
      match nodes serverHandler !! l with
      | None => Panic nil_dereference
      | Some h =>
          match handlers h !! method with
          | Some _ => Panic ("http: multiple registrations for " +:+ pattern)
          | None =>
              Ok {| ServeMux := ServeMux serverHandler;
                    pathPrefix := pathPrefix serverHandler;
                    sh_handlers := sh_handlers serverHandler;
                    nodes := <[l := {| handlers := <[method := handler]> (handlers h) |}]>
                               (nodes serverHandler) |}
          end
      end
  | None =>
      let '(l, st) := newHTTPHandler (nodes serverHandler) in
      let st := <[l := {| handlers := {[method := handler]} |}]> st in
      match http.mux_Handle (ServeMux serverHandler) pattern l with
      | Panic msg => Panic msg
      | Ok mux =>
          Ok {| ServeMux := mux;
                pathPrefix := pathPrefix serverHandler;
                sh_handlers := <[pattern := l]> (sh_handlers serverHandler);
                nodes := st |}
      end
  end.

(** [DefaultServerHandler.PathPrefix] *)
Definition PathPrefix (server : DefaultServerHandler) : string :=
  pathPrefix server.

(** [DefaultServerHandler.SetPathPrefix] *)
Definition SetPathPrefix (prefix : string) (server : DefaultServerHandler)
  : DefaultServerHandler :=
  let l := String.length prefix in
  let set p := {| ServeMux := ServeMux server;
                  pathPrefix := p;
                  sh_handlers := sh_handlers server;
                  nodes := nodes server |} in
  if (0 <? l) && (match String.get (l - 1) prefix with
                  | Some c => Ascii.eqb c "/"
                  | None => false
                  end)
  then set (String.substring 0 (l - 1) prefix)
  else set prefix.

(** The method table reached from a pattern. *)
Definition verbs_of (s : DefaultServerHandler) (pattern : string)
  : option (gmap string Handler) :=
  l ← sh_handlers s !! pattern;
  handlers <$> nodes s !! l.

(** Every pattern holds the address of an allocated node, and no two
    patterns share a node. *)
Definition router_wf (s : DefaultServerHandler) : Prop :=
  (∀ p l, sh_handlers s !! p = Some l → l < length (nodes s)) ∧
  (∀ p q l, sh_handlers s !! p = Some l → sh_handlers s !! q = Some l → p = q).

(** The routers the operations produce. *)
Inductive built : DefaultServerHandler -> Prop :=
  | built_new : built NewServerHandler
  | built_Handle method pattern handler s s' :
      built s -> Handle method pattern handler s = Ok s' -> built s'
  | built_SetPathPrefix prefix s :
      built s -> built (SetPathPrefix prefix s).

(** The request is resolved by the path matcher to the node of [pattern]. *)
Definition routes (s : DefaultServerHandler) (pattern : string)
    (r : http.Request) : Prop :=
  ∃ l, sh_handlers s !! pattern = Some l ∧
       http.mux_Handler (ServeMux s) r = Some l.

End Router.

Arguments defaultHTTPHandler : clear implicits.
Arguments DefaultServerHandler : clear implicits.

Global Instance table_PM : http.PathMatcher (gmap string nat) nat :=
  http.TableMux nat.

(** For a router over the table matcher: the table of the matcher holds the
    patterns of the router, each with the address of its node. *)
Definition coherent {Handler : Type}
    (s : DefaultServerHandler Handler (gmap string nat)) : Prop :=
  ServeMux s = sh_handlers s.


(** ** Logging

    [gol.GetLogger(name)] followed by [Info], [Warn] or [Error]: the entry
    written, with its format string already expanded. *)

Inductive Level : Type := INFO | WARN | ERROR.

Record LogEntry : Type := {
  logger : string;
  level : Level;
  message : string
}.

Definition serverLoggerName : string := "gomelon.server".

Definition entry (lv : Level) (msg : string) : LogEntry :=
  {| logger := serverLoggerName; level := lv; message := msg |}.

Definition nl : string := String (ascii_of_nat 10) "".

(** ** A monad for Go code that changes a state and may panic *)

Definition Go (S A : Type) : Type := S -> Result (A * S).

Global Instance go_ret {S : Type} : MRet (Go S) :=
  fun A a s => Ok (a, s).

Global Instance go_bind {S : Type} : MBind (Go S) :=
  fun A B f m s =>
    match m s with
    | Ok (a, s') => f a s'
    | Panic msg => Panic msg
    end.

Definition panic {S A : Type} (msg : string) : Go S A := fun _ => Panic msg.

(** ** Counting runes

    [utf8.RuneCountInString] of the Go library, which fmt uses to pad a
    string to a width.  A rune is a well-formed UTF-8 sequence of one to
    four bytes; a byte that starts no such sequence counts as one rune of
    width 1. *)

Module utf8.

Definition between (lo hi : nat) (c : ascii) : bool :=
  (lo <=? nat_of_ascii c) && (nat_of_ascii c <=? hi).

(** The second byte of the sequence that [rest] continues, in a range. *)
Definition second (lo hi : nat) (rest : string) : bool :=
  match rest with
  | String c1 _ => between lo hi c1
  | _ => false
  end.

(** Its third and fourth bytes, which are continuation bytes. *)
Definition third (rest : string) : bool :=
  match rest with
  | String _ (String c2 _) => between 128 191 c2
  | _ => false
  end.

Definition fourth (rest : string) : bool :=
  match rest with
  | String _ (String _ (String c3 _)) => between 128 191 c3
  | _ => false
  end.

(** The width in bytes of the rune that starts with the byte [c] followed
    by [rest]. *)
Definition width (c : ascii) (rest : string) : nat :=
  let b := nat_of_ascii c in
  if b <? 128 then 1
  else if (194 <=? b) && (b <=? 223) then
    if second 128 191 rest then 2 else 1
  else if b =? 224 then
    if second 160 191 rest && third rest then 3 else 1
  else if ((225 <=? b) && (b <=? 236)) || (b =? 238) || (b =? 239) then
    if second 128 191 rest && third rest then 3 else 1
  else if b =? 237 then
    if second 128 159 rest && third rest then 3 else 1
  else if b =? 240 then
    if second 144 191 rest && third rest && fourth rest then 4 else 1
  else if (241 <=? b) && (b <=? 243) then
    if second 128 191 rest && third rest && fourth rest then 4 else 1
  else if b =? 244 then
    if second 128 143 rest && third rest && fourth rest then 4 else 1
  else 1.

(** The runes of [s] once [skip] bytes, the rest of the rune being read,
    have been passed over. *)
Fixpoint count (skip : nat) (s : string) : nat :=
  match s with
  | EmptyString => 0
  | String c rest =>
      match skip with
      | S skip => count skip rest
      | 0 => S (count (width c rest - 1) rest)
      end
  end.

Definition RuneCountInString (s : string) : nat := count 0 s.

(** No byte of the string is [utf8.RuneSelf] or above. *)
Fixpoint ascii_only (s : string) : bool :=
  match s with
  | EmptyString => true
  | String c rest => (nat_of_ascii c <? 128) && ascii_only rest
  end.

End utf8.

(** ** Components and their dispatch *)

(** Modelled from the spec: the [Resource] interface, declared outside
    server.go.  server.go calls its methods [Method] and [Path] and prints
    both as strings. *)
Record Resource : Type := {
  res_Method : string;
  res_Path : string
}.

(** A registered component, an [interface{}] value: how [%v] and [%T] print
    it, and what the type assertion [component.(Resource)] yields. *)
Record Component : Type := {
  fmt_v : string;
  fmt_T : string;
  as_Resource : option Resource
}.

Section Dispatch.

Context {Handler M : Type}.

(** What component dispatch acts on: the router behind the field
    [ServerHandler] of the environment (a [DefaultServerHandler], which is
    what [BuildServer] puts there unless told otherwise), and the log. *)
Record World : Type := {
  ServerHandler : DefaultServerHandler Handler M;
  log : list LogEntry
}.

(** Modelled from the spec: the [ResourceHandler] interface, declared
    outside server.go.  [Handle] tells whether the handler claims the
    component; claiming may wire it into the router. *)
Record ResourceHandler : Type := {
  rh_Handle : Component -> Go World bool
}.

(** [ServerEnvironment], without the router, which is in [World]. *)
Record ServerEnvironment : Type := {
  components : list Component;
  resourceHandlers : list ResourceHandler
}.

Definition NewServerEnvironment : ServerEnvironment :=
  {| components := []; resourceHandlers := [] |}.

Definition Register (component : list Component) (env : ServerEnvironment)
  : ServerEnvironment :=
  {| components := components env ++ component;
     resourceHandlers := resourceHandlers env |}.

Definition AddResourceHandler (handler : list ResourceHandler)
    (env : ServerEnvironment) : ServerEnvironment :=
  {| components := components env;
     resourceHandlers := resourceHandlers env ++ handler |}.

Definition write (e : LogEntry) : Go World unit :=
  fun w => Ok (tt, {| ServerHandler := ServerHandler w; log := log w ++ [e] |}).

Definition could_not_handle (component : Component) : LogEntry :=
  entry WARN ("Could not handle " +:+ fmt_v component +:+
              " (" +:+ fmt_T component +:+ ")").

(** The loop of [ServerEnvironment.handle]; [k] is [i + 1], so that the
    loop ends when [i] would become negative. *)
Fixpoint handle_loop (rhs : list ResourceHandler) (component : Component)
    (k : nat) : Go World unit :=
  match k with
  | 0 => write (could_not_handle component)
  | S i =>
      match rhs !! i with
      | None => panic "runtime error: index out of range"
      | Some rh =>
          claimed ← rh_Handle rh component;
          if claimed : bool then mret tt else handle_loop rhs component i
      end
  end.

(** [ServerEnvironment.handle] *)
Definition handle (env : ServerEnvironment) (component : Component)
  : Go World unit :=
  handle_loop (resourceHandlers env) component (length (resourceHandlers env)).

Fixpoint spaces (n : nat) : string :=
  match n with
  | 0 => ""
  | S n => String " " (spaces n)
  end.

(** The verb [%-7s]: left-justified in a field of width 7.  fmt measures
    the width in runes: it writes the string and then as many spaces as
    7 exceeds [utf8.RuneCountInString] of it, none when it does not. *)
Definition pad7 (s : string) : string :=
  s +:+ spaces (7 - utf8.RuneCountInString s).

(** One [Fprintf] of [logResources]. *)
Definition resource_line (prefix : string) (component : Component)
    (res : Resource) : string :=
  "    " +:+ pad7 (res_Method res) +:+ " " +:+ prefix +:+ res_Path res +:+
  " (" +:+ fmt_T component +:+ ")" +:+ nl.

Fixpoint resources_buf (prefix : string) (cs : list Component) (buf : string)
  : string :=
  match cs with
  | [] => buf
  | component :: cs =>
      match as_Resource component with
      | Some res =>
          resources_buf prefix cs (buf +:+ resource_line prefix component res)
      | None => resources_buf prefix cs buf
      end
  end.

(** [ServerEnvironment.logResources] *)
Definition logResources (env : ServerEnvironment) : Go World unit :=
  fun w =>
    let buf := resources_buf (PathPrefix (ServerHandler w)) (components env) "" in
    write (entry INFO ("resources =" +:+ nl +:+ nl +:+ buf)) w.

Fixpoint handle_all (env : ServerEnvironment) (cs : list Component)
  : Go World unit :=
  match cs with
  | [] => mret tt
  | component :: cs => _ ← handle env component; handle_all env cs
  end.

(** [ServerEnvironment.onStarting] *)
Definition onStarting (env : ServerEnvironment) : Go World unit :=
  _ ← handle_all env (components env); logResources env.

(** *** Dispatch as the specification words it

    The chain is tried from its most recently added handler; the first
    handler that claims the component ends the walk; a component nobody
    claims is reported. *)
Fixpoint first_claim (chain : list ResourceHandler) (component : Component)
  : Go World unit :=
  match chain with
  | [] => write (could_not_handle component)
  | rh :: chain =>
      claimed ← rh_Handle rh component;
      if claimed : bool then mret tt else first_claim chain component
  end.

Fixpoint dispatch_spec (chain : list ResourceHandler) (cs : list Component)
  : Go World unit :=
  match cs with
  | [] => mret tt
  | component :: cs => _ ← first_claim chain component; dispatch_spec chain cs
  end.

(** Whether some handler of the chain, tried in order, claims the
    component when the walk starts in [w]. *)
Fixpoint claimed_in (chain : list ResourceHandler) (component : Component)
    (w : World) : bool :=
  match chain with
  | [] => false
  | rh :: chain =>
      match rh_Handle rh component w with
      | Ok (true, _) => true
      | Ok (false, w') => claimed_in chain component w'
      | Panic _ => false
      end
  end.

(** The lines of the listing, said directly: one for each registered
    component that is a [Resource], in registration order. *)
Definition resource_lines (prefix : string) (cs : list Component) : list string :=
  omap (fun component => resource_line prefix component <$> as_Resource component) cs.

Definition join (lines : list string) : string :=
  foldr String.append "" lines.

(** The world after [e] was logged. *)
Definition logged (e : LogEntry) (w : World) : World :=
  {| ServerHandler := ServerHandler w; log := log w ++ [e] |}.

End Dispatch.

Arguments World : clear implicits.
Arguments ResourceHandler : clear implicits.
Arguments ServerEnvironment : clear implicits.

(** ** The managed server *)

(** [net.Listener] belongs to the Go library; a connector only closes it.
    [Close] yields the listener afterwards and the error it reports. *)
Class NetListener (L : Type) : Type := {
  Close : L -> L * option error
}.

(** A TCP listener after net's own: closing an open listener succeeds,
    closing it again reports an error. *)
Inductive TCPListener : Type := Listening | Closed.

Definition TCP : NetListener TCPListener := {|
  Close := fun ln =>
    match ln with
    | Listening => (Closed, None)
    | Closed => (Closed, Some "use of closed network connection")
    end
|}.

(** [os.Signal] values. *)
Inductive Signal : Type := Interrupt | Kill.

(** What the [select] of [DefaultServer.Start] receives: the result of a
    connector from [errorChan], or a signal from [sigChan]. *)
Inductive Received : Type :=
  | FromErrorChan (err : option error)
  | FromSigChan (sig : Signal).

(** A Go routine that starts others and waits on [select]: [Spawn] is a
    [go] statement, which does not block; [Select] blocks until something is
    received and goes on with it. *)
Inductive Routine (C A : Type) : Type :=
  | Return (a : A)
  | Spawn (c : C) (k : Routine C A)
  | Select (k : Received -> Routine C A).
Arguments Return {C A} a.
Arguments Spawn {C A} c k.
Arguments Select {C A} k.

(** Running a routine on what [select] receives, in the order received:
    [None] when the routine is still blocked after all of it. *)
Fixpoint run {C A : Type} (r : Routine C A) (received : list Received) : option A :=
  match r with
  | Return a => Some a
  | Spawn _ k => run k received
  | Select k =>
      match received with
      | [] => None
      | x :: received => run (k x) received
      end
  end.

(** The connectors started by the [go] statements of a routine, in order. *)
Fixpoint spawned {C A : Type} (r : Routine C A) : list C :=
  match r with
  | Spawn c k => c :: spawned k
  | _ => []
  end.

(** Whether a routine can return without receiving anything. *)
Fixpoint blocks {C A : Type} (r : Routine C A) : bool :=
  match r with
  | Return _ => false
  | Spawn _ k => blocks k
  | Select _ => true
  end.

Section Server.

Context {L : Type} `{NL : NetListener L}.

(** [DefaultServerConnector]: [Addr] is [Server.Addr], [Type] the type of
    its configuration; [listener] is [nil] until the connector is started. *)
Record DefaultServerConnector : Type := {
  Addr : string;
  Type_ : string;
  listener : option L
}.

(** Modelled from the spec: [ConnectorConfiguration], declared outside
    server.go, of which server.go reads the type, the address and the
    certificate and key files. *)
Record ConnectorConfiguration : Type := {
  cc_Type : string;
  cc_Addr : string;
  CertFile : string;
  KeyFile : string
}.

(** [NewServerConnector]: the listener is [nil]. *)
Definition NewServerConnector (configuration : ConnectorConfiguration)
  : DefaultServerConnector :=
  {| Addr := cc_Addr configuration; Type_ := cc_Type configuration;
     listener := None |}.

(** [DefaultServerConnector.Stop], with the connector as it is left. *)
Definition Connector_Stop (connector : DefaultServerConnector)
  : option error * DefaultServerConnector :=
  match listener connector with
  | Some ln =>
      let '(ln', err) := Close ln in
      (err, {| Addr := Addr connector; Type_ := Type_ connector;
               listener := Some ln' |})
  | None => (None, connector)
  end.

(** [DefaultServer] *)
Record DefaultServer : Type := {
  Connectors : list DefaultServerConnector
}.

Definition NewServer : DefaultServer := {| Connectors := [] |}.

(** [DefaultServer.AddConnectors] *)
Definition AddConnectors (configurations : list ConnectorConfiguration)
    (server : DefaultServer) : DefaultServer :=
  {| Connectors := Connectors server ++ map NewServerConnector configurations |}.

(** The second loop of [DefaultServer.Start]; [i] counts down from the
    number of connectors. *)
Fixpoint Start_wait (i : nat) : Routine DefaultServerConnector (option error) :=
  match i with
  | 0 => Return None
  | S i =>
      Select (fun x =>
        match x with
        | FromErrorChan (Some err) => Return (Some err)
        | FromErrorChan None => Start_wait i
        | FromSigChan Interrupt => Return None
        | FromSigChan _ => Start_wait i
        end)
  end.

(** The first loop of [DefaultServer.Start]: one [go] statement for each
    connector, then [k]. *)
Fixpoint Start_go (cs : list DefaultServerConnector)
    (k : Routine DefaultServerConnector (option error))
  : Routine DefaultServerConnector (option error) :=
  match cs with
  | [] => k
  | connector :: cs => Spawn connector (Start_go cs k)
  end.

(** [DefaultServer.Start] *)
Definition Start (server : DefaultServer)
  : Routine DefaultServerConnector (option error) :=
  Start_go (Connectors server) (Start_wait (length (Connectors server))).

Definition error_closing (err : error) : LogEntry :=
  entry WARN ("error closing connector: " +:+ err).

(** The loop of [DefaultServer.Stop] over the connectors still to stop;
    [done] are the connectors already stopped. *)
Fixpoint Stop_loop (cs done : list DefaultServerConnector) (lg : list LogEntry)
  : list DefaultServerConnector * list LogEntry :=
  match cs with
  | [] => (done, lg)
  | connector :: cs =>
      let '(err, connector') := Connector_Stop connector in
      Stop_loop cs (done ++ [connector'])
        match err with
        | Some e => lg ++ [error_closing e]
        | None => lg
        end
  end.

(** [DefaultServer.Stop]: the error returned, the server and the log. *)
Definition Stop (server : DefaultServer) (lg : list LogEntry)
  : option error * DefaultServer * list LogEntry :=
  let '(cs, lg') := Stop_loop (Connectors server) [] lg in
  (None, {| Connectors := cs |}, lg').

End Server.

Arguments DefaultServerConnector : clear implicits.
Arguments DefaultServer : clear implicits.

(** ** The server command *)

(** What [ServerCommand.Run] does, one entry for each call it makes to a
    collaborator and each line it logs. *)
Inductive Step : Type :=
  | ParseConfiguration
  | CreateEnvironment
  | BuildServer
  | Log (e : LogEntry)
  | RunBundles
  | RunApplication
  | SetStarting
  | SetStopped
  | ServerStart
  | ServerStop.

(** Modelled from the spec: the collaborators of [ServerCommand.Run] that
    are declared outside server.go (the configured and environment commands,
    the server factory, the bundles of the bootstrap, the application, the
    server that was built, the name of the environment and [readBanner]),
    each by the error its call returns, [None] for [nil]. *)
Record Bootstrap : Type := {
  configuredCommand_Run : option error;
  environmentCommand_Run : option error;
  ServerFactory_BuildServer : option error;
  bootstrap_run : option error;
  Application_Run : option error;
  Server_Start : option error;
  Server_Stop : option error;
  environment_Name : string;
  readBanner : string
}.

(** A function body that goes on with a value or has executed [return]. *)
Inductive Outcome (A : Type) : Type :=
  | Continue (a : A)
  | Returned (err : option error).
Arguments Continue {A} a.
Arguments Returned {A} err.

Definition Cmd (A : Type) : Type := list Step -> Outcome A * list Step.

Global Instance cmd_ret : MRet Cmd :=
  fun A a tr => (Continue a, tr).

Global Instance cmd_bind : MBind Cmd :=
  fun A B f m tr =>
    match m tr with
    | (Continue a, tr') => f a tr'
    | (Returned err, tr') => (Returned err, tr')
    end.

Definition call (s : Step) (err : option error) : Cmd (option error) :=
  fun tr => (Continue err, tr ++ [s]).

Definition return_ {A : Type} (err : option error) : Cmd A :=
  fun tr => (Returned err, tr).

Definition logf (lv : Level) (msg : string) : Cmd unit :=
  fun tr => (Continue tt, tr ++ [Log (entry lv msg)]).

(** [defer d] in front of [body]: [d] runs when [body] is left, whatever
    way, and what it returns is dropped. *)
Definition defer {A B : Type} (d : Cmd B) (body : Cmd A) : Cmd A :=
  fun tr =>
    let '(o, tr') := body tr in
    (o, snd (d tr')).

(** [if err != nil { report; return err }] *)
Definition if_err (err : option error) (report : error -> Cmd unit) : Cmd unit :=
  match err with
  | Some e => _ ← report e; return_ (Some e)
  | None => mret tt
  end.

(** [printBanner] *)
Definition printBanner (name banner : string) : Cmd unit :=
  if negb (String.eqb banner "")
  then logf INFO ("starting " +:+ name +:+ nl +:+ banner)
  else logf INFO ("starting " +:+ name).

(** [ServerCommand.Run] *)
Definition Run_body (bootstrap : Bootstrap) : Cmd unit :=
  err ← call ParseConfiguration (configuredCommand_Run bootstrap);
  _ ← if_err err (fun _ => mret tt);
  err ← call CreateEnvironment (environmentCommand_Run bootstrap);
  _ ← if_err err (fun _ => mret tt);
  err ← call BuildServer (ServerFactory_BuildServer bootstrap);
  _ ← if_err err (fun e => logf ERROR ("could not create server: " +:+ e));
  _ ← printBanner (environment_Name bootstrap) (readBanner bootstrap);
  err ← call RunBundles (bootstrap_run bootstrap);
  _ ← if_err err (fun e => logf ERROR ("could not run bootstrap: " +:+ e));
  err ← call RunApplication (Application_Run bootstrap);
  _ ← if_err err (fun e => logf ERROR ("could not run application: " +:+ e));
  _ ← call SetStarting None;
  defer (call SetStopped None)
    (defer (call ServerStop (Server_Stop bootstrap))
       (err ← call ServerStart (Server_Start bootstrap);
        _ ← match err with
            | Some e => logf ERROR ("could not start server: " +:+ e)
            | None => mret tt
            end;
        return_ err)).

(** The steps of a run, in order, and the error it returns. *)
Definition Run (bootstrap : Bootstrap) : list Step * option error :=
  match Run_body bootstrap [] with
  | (Returned err, tr) => (tr, err)
  | (Continue _, tr) => (tr, None)
  end.

(** The banner line of a run. *)
Definition starting (bootstrap : Bootstrap) : Step :=
  if negb (String.eqb (readBanner bootstrap) "")
  then Log (entry INFO ("starting " +:+ environment_Name bootstrap +:+ nl +:+
                        readBanner bootstrap))
  else Log (entry INFO ("starting " +:+ environment_Name bootstrap)).

(** [y] is done after [x] in [tr]. *)
Definition follows (x y : Step) (tr : list Step) : Prop :=
  ∃ i j, tr !! i = Some x ∧ tr !! j = Some y ∧ i < j.

(** A bootstrap none of whose collaborators fails. *)
Definition quiet : Bootstrap := {|
  configuredCommand_Run := None;
  environmentCommand_Run := None;
  ServerFactory_BuildServer := None;
  bootstrap_run := None;
  Application_Run := None;
  Server_Start := None;
  Server_Stop := None;
  environment_Name := "app";
  readBanner := ""
|}.

(** ** Concrete instances, for examples *)

Module Demo.

(** A router over the table matcher whose application handlers are named by
    strings. *)
Definition Router : Type := DefaultServerHandler string (gmap string nat).

Definition router : Router := NewServerHandler.

Definition handle_ (method pattern handler : string) (s : Router) : Result Router :=
  Handle method pattern handler s.

Definition serve (s : Router) (method path : string) : Result (http.Reply string) :=
  ServeHTTP s {| http.Method := method; http.Path := path |}.

Definition GET (path : string) : http.Request :=
  {| http.Method := "GET"; http.Path := path |}.

Definition POST (path : string) : http.Request :=
  {| http.Method := "POST"; http.Path := path |}.

Definition or_else (r : Result Router) (s : Router) : Router :=
  match r with
  | Ok s' => s'
  | Panic _ => s
  end.

(** [GET /users], then [POST /users] as well. *)
Definition users1 : Router := or_else (handle_ "GET" "/users" "list" router) router.
Definition users2 : Router := or_else (handle_ "POST" "/users" "create" users1) users1.

Definition Env : Type := ServerEnvironment string (gmap string nat).

Definition world : World string (gmap string nat) :=
  {| ServerHandler := router; log := [] |}.

Definition users : Component :=
  {| fmt_v := "&{}"; fmt_T := "*main.Users";
     as_Resource := Some {| res_Method := "GET"; res_Path := "/users" |} |}.

Definition task : Component :=
  {| fmt_v := "&{}"; fmt_T := "*main.Task"; as_Resource := None |}.

(** A resource whose verb has seven bytes and six characters. *)
Definition konten : Component :=
  {| fmt_v := "&{}"; fmt_T := "*main.Konten";
     as_Resource := Some {| res_Method := "PRÜFEN"; res_Path := "/konten" |} |}.

(** A resource handler that claims the resources and registers each under
    [prefix] followed by its path, with a handler named [name]. *)
Definition wires (prefix name : string) : ResourceHandler string (gmap string nat) :=
  {| rh_Handle := fun component w =>
       match as_Resource component with
       | None => Ok (false, w)
       | Some res =>
           match handle_ (res_Method res) (prefix +:+ res_Path res) name (ServerHandler w) with
           | Ok s => Ok (true, {| ServerHandler := s; log := log w |})
           | Panic msg => Panic msg
           end
       end |}.

(** An environment without resource handlers, and one with two handlers
    that both claim resources. *)
Definition bare : Env :=
  {| components := [users]; resourceHandlers := [] |}.

(** The world after [wires "/v2" "second"] has claimed [users]. *)
Definition wired : World string (gmap string nat) :=
  match rh_Handle (wires "/v2" "second") users world with
  | Ok (_, w) => w
  | Panic _ => world
  end.

Definition overridden : Env :=
  {| components := [task; users];
     resourceHandlers := [wires "" "first"; wires "/v2" "second"] |}.

(** A server with a connector that was never started and one that
    listens. *)
Definition idle : DefaultServerConnector TCPListener :=
  {| Addr := ":8080"; Type_ := "http"; listener := None |}.

Definition listening : DefaultServerConnector TCPListener :=
  {| Addr := ":8081"; Type_ := "http"; listener := Some Listening |}.

Definition server : DefaultServer TCPListener :=
  {| Connectors := [idle; listening] |}.

End Demo.

(** ** Starting a connector *)

(** [tls.Config], as far as the connector sets it. *)
Record TLSConfig (Cert : Type) : Type := {
  NextProtos : list string;
  Certificates : list Cert
}.
Arguments NextProtos {Cert} _.
Arguments Certificates {Cert} _.

(** What [DefaultServerConnector.Start] asks of the Go library:
    [net.Listen] on a TCP address, which gives a listener or an error;
    [tls.LoadX509KeyPair] on two file names; [tls.NewListener]; and
    [http.Server.Serve], by the error it returns when it returns. *)
Class NetServe (L Cert : Type) : Type := {
  Listen : string -> error + L;
  LoadX509KeyPair : string -> string -> error + Cert;
  NewListener : L -> TLSConfig Cert -> L;
  Serve : L -> option error
}.

Section ConnectorStart.

Context {L Cert : Type} `{NS : NetServe L Cert}.

(** The address [DefaultServerConnector.Start] listens on. *)
Definition listen_addr (connector : DefaultServerConnector L) : string :=
  let addr := Addr connector in
  if String.eqb addr "" then ":" +:+ Type_ connector else addr.

Definition with_listener (ln : L) (connector : DefaultServerConnector L)
  : DefaultServerConnector L :=
  {| Addr := Addr connector; Type_ := Type_ connector; listener := Some ln |}.

(** [DefaultServerConnector.Start].  [configuration] is the configuration
    of the connector, read for its certificate and key files, and
    [tlsConfig] the field [Server.TLSConfig]; the result is the error
    returned, the connector and [Server.TLSConfig] as they are left. *)
Definition Connector_Start (configuration : ConnectorConfiguration)
    (tlsConfig : option (TLSConfig Cert)) (connector : DefaultServerConnector L)
  : option error * DefaultServerConnector L * option (TLSConfig Cert) :=
  match Listen (listen_addr connector) with
  | inl err => (Some err, connector, tlsConfig)
  | inr ln =>
      let connector := with_listener ln connector in
      if String.eqb (Type_ connector) "https" then
        match LoadX509KeyPair (CertFile configuration) (KeyFile configuration) with
        | inl err => (Some err, connector, tlsConfig)
        | inr c =>
            let config :=
              match tlsConfig with
              | None => {| NextProtos := ["http/1.1"]; Certificates := [] |}
              | Some config => config
              end in
            let config := {| NextProtos := NextProtos config; Certificates := [c] |} in
            let ln' := NewListener ln config in
            (Serve ln', with_listener ln' connector, Some config)
        end
      else (Serve ln, connector, tlsConfig)
  end.

End ConnectorStart.

(** ** Package melon: the configuration command and the application *)

Module melon.

(** A value held in an [interface{}]: how [%v], [%+v] and [%T] print it,
    and whether its type implements [core.Configuration].  [None] is the
    [nil] interface. *)
Record Value : Type := {
  val_v : string;
  val_plus_v : string;
  val_T : string;
  is_Configuration : bool
}.

Definition show_v (x : option Value) : string :=
  match x with Some v => val_v v | None => "<nil>" end.

Definition show_plus_v (x : option Value) : string :=
  match x with Some v => val_plus_v v | None => "<nil>" end.

Definition show_T (x : option Value) : string :=
  match x with Some v => val_T v | None => "<nil>" end.

(** The type assertion [x.(core.Configuration)]. *)
Definition as_Configuration (x : option Value) : option Value :=
  match x with
  | Some v => if is_Configuration v then Some v else None
  | None => None
  end.

(** The collaborators of [ConfigurationCommand.Run], which are declared
    outside configuration.go: what [ConfigurationFactory.Build] returns and
    what the validator answers for a configuration. *)
Record Bootstrap : Type := {
  ConfigurationFactory_Build : option Value * option error;
  Validate : option Value -> option error
}.

(** What a command does that can be seen from outside. *)
Inductive Event : Type :=
  | BuildCalled
  | ValidateCalled (cfg : option Value)
  | Errorf (msg : string)
  | Debugf (msg : string)
  | Println (msg : string).

(** [ConfigurationCommand] *)
Record ConfigurationCommand : Type := {
  Configuration : option Value;
  configuration : option Value
}.

(** [ConfigurationCommand.Run]: the error returned, the command as it is
    left and what was done. *)
Definition ConfigurationCommand_Run (bootstrap : Bootstrap)
    (command : ConfigurationCommand)
  : option error * ConfigurationCommand * list Event :=
  let '(cfg, err) := ConfigurationFactory_Build bootstrap in
  let command := {| Configuration := cfg; configuration := configuration command |} in
  match err with
  | Some e => (Some e, command, [BuildCalled])
  | None =>
      match Validate bootstrap cfg with
      | Some e =>
          (Some e, command,
           [BuildCalled; ValidateCalled cfg;
            Errorf ("configuration is invalid: " +:+ e)])
      | None =>
          let command := {| Configuration := cfg;
                            configuration := as_Configuration cfg |} in
          match as_Configuration cfg with
          | None =>
              (Some ("configuration: unsupported type " +:+ show_T cfg), command,
               [BuildCalled; ValidateCalled cfg;
                Errorf ("configuration does not implement core.Configuration interface " +:+
                        show_v cfg +:+ " " +:+ show_T cfg)])
          | Some _ => (None, command, [BuildCalled; ValidateCalled cfg])
          end
      end
  end.

(** [CheckCommand.Run], on the [ConfigurationCommand] it embeds. *)
Definition CheckCommand_Run (bootstrap : Bootstrap) (c : ConfigurationCommand)
  : option error * ConfigurationCommand * list Event :=
  match ConfigurationCommand_Run bootstrap c with
  | (Some err, c, evs) => (Some err, c, evs)
  | (None, c, evs) =>
      (None, c,
       evs ++ [Debugf ("configuration: " +:+ show_plus_v (Configuration c));
               Println "Configuration is OK"])
  end.

(** [Application], the version with a settable name. *)
Record Application : Type := {
  name : string;
  app_configuration : option Value
}.

(** [Application.Name]: the name, and the application as it is left. *)
Definition Name (app : Application) : string * Application :=
  if String.eqb (name app) ""
  then ("melon-app",
        {| name := "melon-app"; app_configuration := app_configuration app |})
  else (name app, app).

(** [Application.SetName] *)
Definition SetName (n : string) (app : Application) : Application :=
  {| name := n; app_configuration := app_configuration app |}.

End melon.

(** ** Package server: the request log *)

Module requestlog.

(** What [appender.Value()] holds: a console appender factory with its
    target, a file appender factory with its file name and archive
    settings, or something else, given by how [%#v] prints it. *)
Inductive Appender : Type :=
  | ConsoleAppenderFactory (Target : string)
  | FileAppenderFactory (CurrentLogFilename : string) (Archive : bool)
      (ArchivedLogFilenamePattern : string) (ArchivedFileCount : Z)
  | OtherAppender (sharp_v : string).

(** The writers [Build] makes: the standard streams, a rotation file with
    the pattern and count of its rolling policy when it archives, and
    [io.MultiWriter]. *)
#[warnings="-register-all"] Inductive Writer : Type :=
  | Stdout
  | Stderr
  | File (name : string) (rolling : option (string * Z))
  | MultiWriter (writers : list Writer).

(** What [Build] asks of gol's rotation package, on a state of the file
    system: [Open] of a new file by name, and [Start] of a new time
    triggering policy. *)
Class Rotation (FS : Type) : Type := {
  Open : string -> FS -> option error * FS;
  TriggeringPolicy_Start : FS -> option error * FS
}.

(** [buildConsoleWriter] *)
Definition buildConsoleWriter (Target : string) : error + Writer :=
  if String.eqb Target "" || String.eqb Target "stdout" then inr Stdout
  else if String.eqb Target "stderr" then inr Stderr
  else inl ("server: unsupported appender target " +:+ Target).

(** [buildFileWriter] *)
Definition buildFileWriter {FS : Type} `{RO : Rotation FS}
    (CurrentLogFilename : string) (Archive : bool)
    (ArchivedLogFilenamePattern : string) (ArchivedFileCount : Z) (fs : FS)
  : (error + Writer) * FS :=
  match Open CurrentLogFilename fs with
  | (Some err, fs) => (inl err, fs)
  | (None, fs) =>
      if Archive then
        match TriggeringPolicy_Start fs with
        | (Some err, fs) => (inl err, fs)
        | (None, fs) =>
            (inr (File CurrentLogFilename
                    (Some (ArchivedLogFilenamePattern, ArchivedFileCount))), fs)
        end
      else (inr (File CurrentLogFilename None), fs)
  end.

(** The writer of one appender: the body of the loop of [Build]. *)
Definition build_writer {FS : Type} `{RO : Rotation FS} (appender : Appender) (fs : FS)
  : (error + Writer) * FS :=
  match appender with
  | ConsoleAppenderFactory target => (buildConsoleWriter target, fs)
  | FileAppenderFactory file archive pattern count =>
      buildFileWriter file archive pattern count fs
  | OtherAppender sharp_v =>
      (inl ("server: unsupported request log appender " +:+ sharp_v), fs)
  end.

(** The loop of [Build]: [writers] are the writers made so far. *)
Fixpoint build_writers {FS : Type} `{RO : Rotation FS} (appenders : list Appender)
    (writers : list Writer) (fs : FS) : (error + list Writer) * FS :=
  match appenders with
  | [] => (inr writers, fs)
  | appender :: appenders =>
      match build_writer appender fs with
      | (inl err, fs) => (inl err, fs)
      | (inr w, fs) => build_writers appenders (writers ++ [w]) fs
      end
  end.

(** What [Build] returns: an error, neither filter nor error, or the
    filter [slogging.NewFilter(w)]. *)
Inductive Built : Type :=
  | Failed (err : error)
  | NoFilter
  | NewFilter (w : Writer).

(** [RequestLogConfiguration.Build] on its [Appenders]. *)
Definition Build {FS : Type} `{RO : Rotation FS} (Appenders : list Appender) (fs : FS)
  : Built * FS :=
  match build_writers Appenders [] fs with
  | (inl err, fs) => (Failed err, fs)
  | (inr writers, fs) =>
      match writers with
      | [] => (NoFilter, fs)
      | [w] => (NewFilter w, fs)
      | _ => (NewFilter (MultiWriter writers), fs)
      end
  end.

(** The writer an appender gets when it is built without error: none for
    an appender that cannot be built at all. *)
Definition writer_for (appender : Appender) : option Writer :=
  match appender with
  | ConsoleAppenderFactory target =>
      match buildConsoleWriter target with
      | inr w => Some w
      | inl _ => None
      end
  | FileAppenderFactory file archive pattern count =>
      Some (File file (if archive then Some (pattern, count) else None))
  | OtherAppender _ => None
  end.

Definition is_console (appender : Appender) : bool :=
  match appender with
  | ConsoleAppenderFactory _ => true
  | _ => false
  end.

(** A file system that refuses to open the files named in [locked] and
    keeps the names of the files it opened, in order. *)
Definition Locked (locked : list string) : Rotation (list string) := {|
  Open := fun name opened =>
    if bool_decide (name ∈ locked)
    then (Some ("open " +:+ name +:+ ": permission denied"), opened)
    else (None, opened ++ [name]);
  TriggeringPolicy_Start := fun opened => (None, opened)
|}.

End requestlog.

(** ** More examples *)

Module More.

(** [POST /orders] first, and the two routes in both orders. *)
Definition orders1 : Demo.Router :=
  Demo.or_else (Demo.handle_ "POST" "/orders" "new" Demo.router) Demo.router.

Definition users_orders : Demo.Router :=
  Demo.or_else (Demo.handle_ "POST" "/orders" "new" Demo.users1) Demo.users1.

Definition orders_users : Demo.Router :=
  Demo.or_else (Demo.handle_ "GET" "/users" "list" orders1) orders1.

End More.

Module MoreDispatch.



End MoreDispatch.

(** Whether a connector has a listener. *)
Definition has_listener {L : Type} (connector : DefaultServerConnector L) : bool :=
  match listener connector with
  | Some _ => true
  | None => false
  end.

Module MoreServer.

(** A network where port 8080 is taken and certificates are files whose
    names are not empty. *)
Definition net : NetServe TCPListener string := {|
  Listen := fun addr =>
    if String.eqb addr ":8080"
    then inl "listen tcp :8080: bind: address already in use"
    else inr Listening;
  LoadX509KeyPair := fun certFile keyFile =>
    if String.eqb certFile "" then inl "open : no such file or directory"
    else inr (certFile +:+ "+" +:+ keyFile);
  NewListener := fun ln _ => ln;
  Serve := fun _ => Some "use of closed network connection"
|}.

Definition secure : DefaultServerConnector TCPListener :=
  {| Addr := ""; Type_ := "https"; listener := None |}.

Definition no_certificate : ConnectorConfiguration :=
  {| cc_Type := "https"; cc_Addr := ""; CertFile := ""; KeyFile := "" |}.

End MoreServer.

(** The first error of a list of results, [None] when there is none. *)
Fixpoint first_failure (results : list (option error)) : option error :=
  match results with
  | [] => None
  | Some e :: _ => Some e
  | None :: results => first_failure results
  end.

Module MoreMelon.

Definition settings : melon.Value :=
  {| melon.val_v := "{8080}"; melon.val_plus_v := "{Port:8080}";
     melon.val_T := "*main.Settings"; melon.is_Configuration := false |}.

(** A bootstrap whose configuration is built and valid but does not
    implement [core.Configuration]. *)
Definition unsupported : melon.Bootstrap :=
  {| melon.ConfigurationFactory_Build := (Some settings, None);
     melon.Validate := fun _ => None |}.

Definition fresh : melon.ConfigurationCommand :=
  {| melon.Configuration := None; melon.configuration := None |}.

Definition defaults : melon.Value :=
  {| melon.val_v := "{}"; melon.val_plus_v := "{}";
     melon.val_T := "*main.Defaults"; melon.is_Configuration := true |}.

(** A command that has run before and still holds a configuration. *)
Definition used : melon.ConfigurationCommand :=
  {| melon.Configuration := Some defaults; melon.configuration := Some defaults |}.

End MoreMelon.

(** * Properties *)

(** ** Strings *)

Lemma length_append (a b : string) :
  String.length (a +:+ b) = String.length a + String.length b.
Proof. induction a as [|c a IH]; simpl; [done | by rewrite IH]. Qed.

Lemma append_assoc (a b c : string) :
  (a +:+ b) +:+ c = a +:+ (b +:+ c).
Proof.
  induction a as [|x a IH]; [done|].
  change (String x ((a +:+ b) +:+ c) = String x (a +:+ b +:+ c)).
  by f_equal.
Qed.

Lemma substring_append (a b : string) :
  String.substring 0 (String.length a) (a +:+ b) = a.
Proof.
  induction a as [|c a IH]; simpl.
  - by destruct b.
  - by rewrite IH.
Qed.

Lemma get_append (a b : string) :
  String.get (String.length a) (a +:+ b) = String.get 0 b.
Proof. induction a as [|c a IH]; simpl; done. Qed.

Lemma substring_all (a : string) :
  String.substring 0 (String.length a) a = a.
Proof. induction a as [|c a IH]; simpl; [done | by rewrite IH]. Qed.

Lemma ends_with_slash_append (q : string) :
  ends_with_slash (q +:+ "/") = true.
Proof.
  unfold ends_with_slash. rewrite length_append. simpl.
  replace (String.length q + 1 - 1) with (String.length q) by lia.
  by rewrite get_append.
Qed.

(** A string that ends with a slash is its first bytes followed by one. *)
Lemma ends_with_slash_split (p : string) :
  ends_with_slash p = true ->
  p = String.substring 0 (String.length p - 1) p +:+ "/".
Proof.
  unfold ends_with_slash.
  induction p as [|c p IH]; [done |].
  destruct p as [|c' p].
  - simpl. intros H. apply Ascii.eqb_eq in H. by subst.
  - replace (String.length (String c (String c' p)) - 1)
      with (S (String.length (String c' p) - 1)) by (simpl; lia).
    change (String.get (S (String.length (String c' p) - 1))
              (String c (String c' p)))
      with (String.get (String.length (String c' p) - 1) (String c' p)).
    intros H. specialize (IH H). clear H.
    change (String.substring 0 (S (String.length (String c' p) - 1))
              (String c (String c' p)))
      with (String c (String.substring 0 (String.length (String c' p) - 1)
                        (String c' p))).
    rewrite IH at 1. reflexivity.
Qed.

(** ** The method router *)

Section RouterFacts.

Context {Handler M : Type} `{PM : http.PathMatcher M nat}.

Implicit Types (s : DefaultServerHandler Handler M) (r : http.Request).
Implicit Types (method pattern prefix : string) (handler : Handler).

Lemma SetPathPrefix_cond prefix :
  (0 <? String.length prefix) &&
    match String.get (String.length prefix - 1) prefix with
    | Some c => Ascii.eqb c "/"
    | None => false
    end = ends_with_slash prefix.
Proof.
  unfold ends_with_slash. destruct prefix as [|c prefix]; [done |].
  by simpl.
Qed.

Lemma SetPathPrefix_frame prefix s :
  ServeMux (SetPathPrefix prefix s) = ServeMux s ∧
  sh_handlers (SetPathPrefix prefix s) = sh_handlers s ∧
  nodes (SetPathPrefix prefix s) = nodes s.
Proof. unfold SetPathPrefix. by destruct (_ && _). Qed.

Lemma SetPathPrefix_prefix prefix s :
  pathPrefix (SetPathPrefix prefix s) =
  if ends_with_slash prefix
  then String.substring 0 (String.length prefix - 1) prefix
  else prefix.
Proof.
  unfold SetPathPrefix. rewrite SetPathPrefix_cond.
  by destruct (ends_with_slash prefix).
Qed.

Lemma SetPathPrefix_slash q s :
  PathPrefix (SetPathPrefix (q +:+ "/") s) = q.
Proof.
  unfold PathPrefix. rewrite SetPathPrefix_prefix, ends_with_slash_append.
  rewrite length_append. simpl.
  replace (String.length q + 1 - 1) with (String.length q) by lia.
  apply substring_append.
Qed.

Lemma SetPathPrefix_no_slash prefix s :
  ends_with_slash prefix = false ->
  PathPrefix (SetPathPrefix prefix s) = prefix.
Proof.
  intros H. unfold PathPrefix. by rewrite SetPathPrefix_prefix, H.
Qed.

Lemma SetPathPrefix_wf prefix s :
  router_wf s -> router_wf (SetPathPrefix prefix s).
Proof.
  unfold router_wf.
  destruct (SetPathPrefix_frame prefix s) as (_ & -> & ->). done.
Qed.

Lemma SetPathPrefix_verbs_of prefix s pattern :
  verbs_of (SetPathPrefix prefix s) pattern = verbs_of s pattern.
Proof.
  unfold verbs_of.
  destruct (SetPathPrefix_frame prefix s) as (_ & -> & ->). done.
Qed.

Lemma SetPathPrefix_ServeHTTP prefix s r :
  ServeHTTP (SetPathPrefix prefix s) r = ServeHTTP s r.
Proof.
  unfold ServeHTTP.
  destruct (SetPathPrefix_frame prefix s) as (-> & _ & ->). done.
Qed.

Lemma NewServerHandler_wf : router_wf (NewServerHandler (Handler := Handler)).
Proof. split; intros *; simpl; by rewrite lookup_empty. Qed.

(** What a successful [Handle] did: it extended the node of a pattern that
    was there, or allocated a node for a pattern that was not and passed
    it to the path matcher. *)
Lemma Handle_inv method pattern handler s s' :
  Handle method pattern handler s = Ok s' ->
  (∃ l h,
      sh_handlers s !! (pathPrefix s +:+ pattern) = Some l ∧
      nodes s !! l = Some h ∧ handlers h !! method = None ∧
      s' = {| ServeMux := ServeMux s; pathPrefix := pathPrefix s;
              sh_handlers := sh_handlers s;
              nodes := <[l := {| handlers := <[method := handler]> (handlers h) |}]>
                         (nodes s) |}) ∨
  (sh_handlers s !! (pathPrefix s +:+ pattern) = None ∧
   ∃ mux,
      http.mux_Handle (ServeMux s) (pathPrefix s +:+ pattern) (length (nodes s)) = Ok mux ∧
      s' = {| ServeMux := mux; pathPrefix := pathPrefix s;
              sh_handlers := <[pathPrefix s +:+ pattern := length (nodes s)]> (sh_handlers s);
              nodes := nodes s ++ [ {| handlers := {[method := handler]} |} ] |}).
Proof.
  unfold Handle.
  destruct (sh_handlers s !! (pathPrefix s +:+ pattern)) as [l|] eqn:Hp.
  - destruct (nodes s !! l) as [h|] eqn:Hl; [|done].
    destruct (handlers h !! method) eqn:Hm; [done|].
    intros [= <-]. left. by exists l, h.
  - simpl.
    destruct (http.mux_Handle _ _ _) as [mux|] eqn:Hmux; [|done].
    intros [= <-]. right. split; [done|]. exists mux. split; [done|].
    f_equal.
    replace (length (nodes s)) with (length (nodes s) + 0) at 1 by lia.
    by rewrite insert_app_r.
Qed.

Lemma Handle_prefix method pattern handler s s' :
  Handle method pattern handler s = Ok s' -> pathPrefix s' = pathPrefix s.
Proof.
  intros H. apply Handle_inv in H as [(l & h & _ & _ & _ & ->)|(_ & mux & _ & ->)]; done.
Qed.

(** After a successful [Handle] the method is bound to the handler under
    the prefixed pattern, and the other methods of the pattern are bound as
    before. *)
Lemma Handle_verbs method pattern handler s s' :
  Handle method pattern handler s = Ok s' ->
  ∃ vm, verbs_of s' (pathPrefix s +:+ pattern) = Some vm ∧
        vm !! method = Some handler ∧
        ∀ v, v ≠ method ->
             vm !! v = default ∅ (verbs_of s (pathPrefix s +:+ pattern)) !! v.
Proof.
  intros H. apply Handle_inv in H as [(l & h & Hp & Hl & Hm & ->)|(Hp & mux & _ & ->)].
  - exists (<[method := handler]> (handlers h)). unfold verbs_of; simpl.
    rewrite Hp; simpl. rewrite Hl; simpl.
    rewrite list_lookup_insert_eq by (by eapply lookup_lt_Some).
    split; [done|]. split; [apply lookup_insert_eq|].
    intros v Hv. by rewrite lookup_insert_ne.
  - exists {[method := handler]}. unfold verbs_of; simpl.
    rewrite lookup_insert_eq; simpl. rewrite Hp; simpl.
    rewrite list_lookup_middle by done. simpl.
    split; [done|]. split; [apply lookup_singleton_eq|].
    intros v Hv. by rewrite lookup_singleton_ne, lookup_empty.
Qed.

(** A request resolved to the node of a pattern is answered from the
    method table of that pattern. *)
Lemma ServeHTTP_routes s pattern r vm :
  routes s pattern r -> verbs_of s pattern = Some vm ->
  ServeHTTP s r =
  Ok match vm !! http.Method r with
     | Some h => http.Delegate h
     | None => http.Error "405 method not allowed" http.StatusMethodNotAllowed
     end.
Proof.
  intros (l & Hp & Hr). unfold verbs_of, ServeHTTP, defaultHTTPHandler_ServeHTTP.
  rewrite Hp, Hr; simpl.
  destruct (nodes s !! l) as [h|]; [|done]. simpl. intros [= <-].
  by destruct (handlers h !! http.Method r).
Qed.


Lemma Handle_wf method pattern handler s s' :
  router_wf s -> Handle method pattern handler s = Ok s' -> router_wf s'.
Proof.
  intros [Hlt Hinj] H.
  apply Handle_inv in H as [(l & h & Hp & Hl & Hm & ->)|(Hp & mux & _ & ->)];
    split; simpl.
  - intros p0 l0 H0. rewrite length_insert. by eapply Hlt.
  - done.
  - intros p0 l0. rewrite length_app; simpl.
    destruct (decide (pathPrefix s +:+ pattern = p0)) as [<-|Hne].
    + rewrite lookup_insert_eq. intros [= <-]. lia.
    + rewrite lookup_insert_ne by done. intros H0%Hlt. lia.
  - intros p0 q0 l0.
    destruct (decide (pathPrefix s +:+ pattern = p0)) as [<-|Hp0];
      destruct (decide (pathPrefix s +:+ pattern = q0)) as [<-|Hq0];
      rewrite ?lookup_insert_eq, ?lookup_insert_ne by done; try done.
    + intros [= <-] H0%Hlt. lia.
    + intros H0%Hlt [= <-]. lia.
    + apply Hinj.
Qed.

(** Every router the operations produce is well formed. *)
Lemma built_wf s : built s -> router_wf s.
Proof.
  induction 1 as [|method pattern handler s s' _ IH H|prefix s _ IH].
  - apply NewServerHandler_wf.
  - by eapply Handle_wf.
  - by apply SetPathPrefix_wf.
Qed.

(** [Handle] leaves the method tables of the other patterns as they are. *)
Lemma Handle_frame method pattern handler s s' q :
  router_wf s -> Handle method pattern handler s = Ok s' ->
  q ≠ pathPrefix s +:+ pattern -> verbs_of s' q = verbs_of s q.
Proof.
  intros [Hlt Hinj] H Hq.
  apply Handle_inv in H as [(l & h & Hp & Hl & Hm & ->)|(Hp & mux & _ & ->)];
    unfold verbs_of; simpl.
  - destruct (sh_handlers s !! q) as [l'|] eqn:Hq'; [|done]. simpl.
    rewrite list_lookup_insert_ne; [done|].
    intros <-. apply Hq. by eapply Hinj.
  - rewrite lookup_insert_ne by done.
    destruct (sh_handlers s !! q) as [l'|] eqn:Hq'; [|done]. simpl.
    by rewrite lookup_app_l by (by eapply Hlt).
Qed.

Lemma Handle_duplicate method pattern handler s vm h0 :
  verbs_of s (pathPrefix s +:+ pattern) = Some vm -> vm !! method = Some h0 ->
  Handle method pattern handler s =
  Panic ("http: multiple registrations for " +:+ pathPrefix s +:+ pattern).
Proof.
  unfold verbs_of, Handle.
  destruct (sh_handlers s !! (pathPrefix s +:+ pattern)) as [l|]; [|done]. simpl.
  destruct (nodes s !! l) as [h|]; [|done]. simpl.
  intros [= <-] ->. done.
Qed.

Lemma Handle_add_verb method pattern handler s vm :
  verbs_of s (pathPrefix s +:+ pattern) = Some vm -> vm !! method = None ->
  ∃ s', Handle method pattern handler s = Ok s' ∧
        ServeMux s' = ServeMux s ∧ sh_handlers s' = sh_handlers s ∧
        pathPrefix s' = pathPrefix s ∧
        verbs_of s' (pathPrefix s +:+ pattern) = Some (<[method := handler]> vm).
Proof.
  unfold verbs_of, Handle.
  destruct (sh_handlers s !! (pathPrefix s +:+ pattern)) as [l|] eqn:Hp; [|done].
  simpl. destruct (nodes s !! l) as [h|] eqn:Hl; [|done]. simpl.
  intros [= <-] ->. eexists. split; [done|]. simpl.
  rewrite Hp; simpl.
  by rewrite list_lookup_insert_eq by (by eapply lookup_lt_Some).
Qed.

Lemma Handle_new_pattern method pattern handler s :
  sh_handlers s !! (pathPrefix s +:+ pattern) = None ->
  match http.mux_Handle (ServeMux s) (pathPrefix s +:+ pattern) (length (nodes s)) with
  | Ok mux =>
      ∃ s', Handle method pattern handler s = Ok s' ∧
            ServeMux s' = mux ∧
            sh_handlers s' =
              <[pathPrefix s +:+ pattern := length (nodes s)]> (sh_handlers s) ∧
            verbs_of s' (pathPrefix s +:+ pattern) = Some {[method := handler]}
  | Panic msg => Handle method pattern handler s = Panic msg
  end.
Proof.
  intros Hp. unfold Handle. rewrite Hp. simpl.
  destruct (http.mux_Handle _ _ _) as [mux|msg]; [|done].
  eexists. split; [done|]. simpl. split; [done|]. split; [done|].
  unfold verbs_of; simpl. rewrite lookup_insert_eq; simpl.
  rewrite list_lookup_insert_eq by (rewrite length_app; simpl; lia).
  done.
Qed.

Lemma Handle_twice method pattern handler handler' s s1 :
  Handle method pattern handler s = Ok s1 ->
  Handle method pattern handler' s1 =
  Panic ("http: multiple registrations for " +:+ pathPrefix s +:+ pattern).
Proof.
  intros H. destruct (Handle_verbs _ _ _ _ _ H) as (vm & Hvm & Hm & _).
  rewrite <- (Handle_prefix _ _ _ _ _ H) in Hvm |- *.
  by eapply Handle_duplicate.
Qed.

(** Bindings made earlier survive a later [Handle]. *)
Lemma Handle_keeps method pattern handler s s' q vm v h :
  router_wf s -> Handle method pattern handler s = Ok s' ->
  verbs_of s q = Some vm -> vm !! v = Some h ->
  ∃ vm', verbs_of s' q = Some vm' ∧ vm' !! v = Some h.
Proof.
  intros Hwf H Hq Hv.
  destruct (decide (q = pathPrefix s +:+ pattern)) as [->|Hne].
  - destruct (decide (v = method)) as [->|Hvm].
    + by rewrite (Handle_duplicate _ _ handler _ _ _ Hq Hv) in H.
    + destruct (Handle_verbs _ _ _ _ _ H) as (vm' & Hvm' & _ & Hold).
      exists vm'. split; [done|]. rewrite Hold by done. by rewrite Hq.
  - exists vm. by rewrite (Handle_frame _ _ _ _ _ _ Hwf H Hne).
Qed.

(** C1.  [Handle] on a (pattern, method) pair: a pair that is already
    registered makes it panic, so registering a pair twice panics; a new
    method of a registered pattern is added to the node of that pattern,
    without a call to the path matcher, and both methods are then served by
    their own handlers; a new pattern gets a fresh node that holds the
    method and is passed to [Handle] of the path matcher, whose panic, if
    any, is the panic of the call. *)
Theorem Handle_registration method pattern handler s :
  (∀ vm h0,
      verbs_of s (pathPrefix s +:+ pattern) = Some vm -> vm !! method = Some h0 ->
      Handle method pattern handler s =
      Panic ("http: multiple registrations for " +:+ pathPrefix s +:+ pattern)) ∧
  (∀ s1 handler',
      Handle method pattern handler s = Ok s1 ->
      Handle method pattern handler' s1 =
      Panic ("http: multiple registrations for " +:+ pathPrefix s +:+ pattern)) ∧
  (∀ vm,
      verbs_of s (pathPrefix s +:+ pattern) = Some vm -> vm !! method = None ->
      ∃ s', Handle method pattern handler s = Ok s' ∧
            ServeMux s' = ServeMux s ∧ sh_handlers s' = sh_handlers s ∧
            verbs_of s' (pathPrefix s +:+ pattern) = Some (<[method := handler]> vm)) ∧
  (∀ method2 handler2 s1,
      method2 ≠ method ->
      default ∅ (verbs_of s (pathPrefix s +:+ pattern)) !! method2 = None ->
      Handle method pattern handler s = Ok s1 ->
      ∃ s2, Handle method2 pattern handler2 s1 = Ok s2 ∧
            ∀ r, routes s2 (pathPrefix s +:+ pattern) r ->
                 (http.Method r = method ->
                  ServeHTTP s2 r = Ok (http.Delegate handler)) ∧
                 (http.Method r = method2 ->
                  ServeHTTP s2 r = Ok (http.Delegate handler2))) ∧
  (sh_handlers s !! (pathPrefix s +:+ pattern) = None ->
   nodes s !! length (nodes s) = None ∧
   match http.mux_Handle (ServeMux s) (pathPrefix s +:+ pattern) (length (nodes s)) with
   | Ok mux =>
       ∃ s', Handle method pattern handler s = Ok s' ∧
             ServeMux s' = mux ∧
             sh_handlers s' =
               <[pathPrefix s +:+ pattern := length (nodes s)]> (sh_handlers s) ∧
             verbs_of s' (pathPrefix s +:+ pattern) = Some {[method := handler]}
   | Panic msg => Handle method pattern handler s = Panic msg
   end).
Proof.
  split; [|split; [|split; [|split]]].
  - intros vm h0. apply Handle_duplicate.
  - intros s1 handler'. apply Handle_twice.
  - intros vm Hvm Hm.
    destruct (Handle_add_verb method pattern handler s vm Hvm Hm)
      as (s' & ? & ? & ? & _ & ?).
    by exists s'.
  - intros method2 handler2 s1 Hne Hfree H1.
    destruct (Handle_verbs _ _ _ _ _ H1) as (vm1 & Hvm1 & Hm1 & Hold).
    pose proof (Handle_prefix _ _ _ _ _ H1) as Hpre.
    assert (vm1 !! method2 = None) as Hm2 by (by rewrite Hold).
    rewrite <- Hpre in Hvm1.
    destruct (Handle_add_verb method2 pattern handler2 s1 vm1 Hvm1 Hm2)
      as (s2 & H2 & _ & _ & _ & Hvm2).
    exists s2. split; [done|]. rewrite Hpre in Hvm2.
    intros r Hr. rewrite (ServeHTTP_routes _ _ _ _ Hr Hvm2).
    split; intros ->.
    + by rewrite lookup_insert_ne, Hm1.
    + by rewrite lookup_insert_eq.
  - intros Hp. split; [by apply lookup_ge_None|].
    by apply Handle_new_pattern.
Qed.


(** C7, as the code has it.  [PathPrefix] after [SetPathPrefix] is the
    string that was set without its last byte when that byte is a slash,
    and the string itself otherwise: one slash is removed, so what is
    returned still ends with a slash exactly when the string ended with
    two. *)
Theorem SetPathPrefix_strips_one_slash prefix s :
  (∀ q, prefix = q +:+ "/" -> PathPrefix (SetPathPrefix prefix s) = q) ∧
  (ends_with_slash prefix = false -> PathPrefix (SetPathPrefix prefix s) = prefix) ∧
  (ends_with_slash (PathPrefix (SetPathPrefix prefix s)) = true <->
   ∃ q, prefix = q +:+ "//").
Proof.
  split; [|split].
  - intros q ->. apply SetPathPrefix_slash.
  - apply SetPathPrefix_no_slash.
  - split.
    + destruct (ends_with_slash prefix) eqn:E.
      * apply ends_with_slash_split in E. rewrite E at 1.
        rewrite SetPathPrefix_slash. intros E'.
        apply ends_with_slash_split in E'.
        eexists. rewrite E, E' at 1.
        by rewrite append_assoc.
      * rewrite SetPathPrefix_no_slash by done. congruence.
    + intros [q ->].
      replace (q +:+ "//") with ((q +:+ "/") +:+ "/")
        by (by rewrite append_assoc).
      rewrite SetPathPrefix_slash. apply ends_with_slash_append.
Qed.

(** C10.  A successful [Handle] binds the method under the pattern made
    with the prefix of that moment.  [SetPathPrefix] afterwards changes
    neither the path matcher, nor the patterns, nor their method tables,
    nor any reply.  A [Handle] after it registers under the new prefix, and
    keeps every binding made before; the method tables of the other
    patterns are the same. *)
Theorem Handle_prefix_at_registration method pattern handler s s' :
  router_wf s -> Handle method pattern handler s = Ok s' ->
  (∃ vm, verbs_of s' (PathPrefix s +:+ pattern) = Some vm ∧
         vm !! method = Some handler) ∧
  (∀ prefix,
      ServeMux (SetPathPrefix prefix s') = ServeMux s' ∧
      sh_handlers (SetPathPrefix prefix s') = sh_handlers s' ∧
      (∀ q, verbs_of (SetPathPrefix prefix s') q = verbs_of s' q) ∧
      (∀ r, ServeHTTP (SetPathPrefix prefix s') r = ServeHTTP s' r)) ∧
  (∀ prefix method2 pattern2 handler2 s3,
      Handle method2 pattern2 handler2 (SetPathPrefix prefix s') = Ok s3 ->
      (∃ vm, verbs_of s3 (PathPrefix (SetPathPrefix prefix s') +:+ pattern2) = Some vm ∧
             vm !! method2 = Some handler2) ∧
      (∀ q vm v h, verbs_of s' q = Some vm -> vm !! v = Some h ->
                   ∃ vm3, verbs_of s3 q = Some vm3 ∧ vm3 !! v = Some h) ∧
      (∀ q, q ≠ PathPrefix (SetPathPrefix prefix s') +:+ pattern2 ->
            verbs_of s3 q = verbs_of s' q)).
Proof.
  intros Hwf H. pose proof (Handle_wf _ _ _ _ _ Hwf H) as Hwf'.
  split; [|split].
  - destruct (Handle_verbs _ _ _ _ _ H) as (vm & ? & ? & _). by exists vm.
  - intros prefix.
    destruct (SetPathPrefix_frame prefix s') as (? & ? & _).
    split; [done|]. split; [done|]. split.
    + intros q. apply SetPathPrefix_verbs_of.
    + intros r. apply SetPathPrefix_ServeHTTP.
  - intros prefix method2 pattern2 handler2 s3 H3.
    pose proof (SetPathPrefix_wf prefix _ Hwf') as Hwf''.
    split; [|split].
    + destruct (Handle_verbs _ _ _ _ _ H3) as (vm & ? & ? & _). by exists vm.
    + intros q vm v h Hq Hv.
      rewrite <- (SetPathPrefix_verbs_of prefix) in Hq.
      by eapply Handle_keeps.
    + intros q Hq. rewrite (Handle_frame _ _ _ _ _ _ Hwf'' H3 Hq).
      apply SetPathPrefix_verbs_of.
Qed.

End RouterFacts.

(** ** The router over the table matcher *)

Section TableFacts.

Context {N : Type}.

(** What [table_match] finds: nothing when no pattern of the table matches
    the path, and otherwise a longest pattern that does. *)
Lemma table_match_spec (m : gmap string N) (path : string) :
  match http.table_match m path with
  | None => ∀ k v, m !! k = Some v -> http.pathMatch k path = false
  | Some (k, v) =>
      m !! k = Some v ∧ http.pathMatch k path = true ∧
      ∀ k' v', m !! k' = Some v' -> http.pathMatch k' path = true ->
               String.length k' ≤ String.length k
  end.
Proof.
  unfold http.table_match.
  apply (map_fold_weak_ind (fun r m =>
    match r with
    | None => ∀ k v, m !! k = Some v -> http.pathMatch k path = false
    | Some (k, v) =>
        m !! k = Some v ∧ http.pathMatch k path = true ∧
        ∀ k' v', m !! k' = Some v' -> http.pathMatch k' path = true ->
                 String.length k' ≤ String.length k
    end)).
  - intros k v. by rewrite lookup_empty.
  - intros i x m0 r Hi IH.
    destruct (http.pathMatch i path) eqn:Hm.
    + destruct r as [[k v]|]; simpl.
      * destruct IH as (Hk & Hkm & Hmax).
        destruct (String.length k <? String.length i) eqn:Hlen.
        -- apply Nat.ltb_lt in Hlen. split; [apply lookup_insert_eq|].
           split; [done|]. intros k' v'.
           destruct (decide (i = k')) as [<-|Hne]; [lia|].
           rewrite lookup_insert_ne by done. intros H1 H2.
           specialize (Hmax _ _ H1 H2). lia.
        -- apply Nat.ltb_ge in Hlen.
           assert (i ≠ k) by congruence.
           split; [by rewrite lookup_insert_ne|]. split; [done|].
           intros k' v'.
           destruct (decide (i = k')) as [<-|Hne]; [lia|].
           rewrite lookup_insert_ne by done. apply Hmax.
      * split; [apply lookup_insert_eq|]. split; [done|].
        intros k' v'.
        destruct (decide (i = k')) as [<-|Hne]; [lia|].
        rewrite lookup_insert_ne by done. intros H1 H2.
        by rewrite (IH _ _ H1) in H2.
    + destruct r as [[k v]|].
      * destruct IH as (Hk & Hkm & Hmax).
        assert (i ≠ k) by congruence.
        split; [by rewrite lookup_insert_ne|]. split; [done|].
        intros k' v'.
        destruct (decide (i = k')) as [<-|Hne]; [congruence|].
        rewrite lookup_insert_ne by done. apply Hmax.
      * intros k v.
        destruct (decide (i = k)) as [<-|Hne]; [done|].
        rewrite lookup_insert_ne by done. apply IH.
Qed.

End TableFacts.

Lemma pathMatch_self (p : string) : p ≠ "" -> http.pathMatch p p = true.
Proof.
  intros Hp. unfold http.pathMatch.
  destruct (String.length p =? 0) eqn:E.
  { apply Nat.eqb_eq in E. by destruct p. }
  destruct (ends_with_slash p); simpl.
  - rewrite substring_all, String.eqb_refl.
    by rewrite andb_true_r, Nat.leb_le.
  - apply String.eqb_refl.
Qed.

(** A pattern that matches a path and is not shorter than it is the
    path. *)
Lemma pathMatch_full (k p : string) :
  http.pathMatch k p = true -> String.length p ≤ String.length k -> k = p.
Proof.
  unfold http.pathMatch. destruct (String.length k =? 0); [done|].
  destruct (ends_with_slash k); simpl.
  - intros [Hle Heq]%andb_true_iff Hge.
    apply Nat.leb_le in Hle. apply String.eqb_eq in Heq.
    assert (String.length k = String.length p) as E by lia.
    by rewrite E, substring_all in Heq.
  - intros H _. by apply String.eqb_eq.
Qed.

Section TableRouterFacts.

Context {Handler : Type}.

Implicit Types (s : DefaultServerHandler Handler (gmap string nat)).

Lemma coherent_new : coherent (NewServerHandler (Handler := Handler)).
Proof. done. Qed.

Lemma coherent_SetPathPrefix prefix s :
  coherent s -> coherent (SetPathPrefix prefix s).
Proof.
  unfold coherent. by destruct (SetPathPrefix_frame prefix s) as (-> & -> & _).
Qed.

Lemma coherent_Handle method pattern handler s s' :
  coherent s -> Handle method pattern handler s = Ok s' -> coherent s'.
Proof.
  unfold coherent. intros Hc H.
  apply Handle_inv in H as [(l & h & _ & _ & _ & ->)|(Hp & mux & Hmux & ->)];
    simpl; [done|].
  simpl in Hmux. unfold http.table_Handle in Hmux.
  destruct (String.eqb _ ""); [done|]. rewrite Hc, Hp in Hmux.
  by injection Hmux as <-.
Qed.

Lemma built_coherent s : built s -> coherent s.
Proof.
  induction 1 as [|method pattern handler s s' _ IH H|prefix s _ IH].
  - apply coherent_new.
  - by eapply coherent_Handle.
  - by apply coherent_SetPathPrefix.
Qed.

(** Over the table matcher a new pattern is always registered, unless it
    is empty. *)
Lemma table_Handle_new method pattern handler s :
  coherent s ->
  sh_handlers s !! (pathPrefix s +:+ pattern) = None ->
  pathPrefix s +:+ pattern ≠ "" ->
  ∃ s', Handle method pattern handler s = Ok s'.
Proof.
  intros Hc Hp Hne.
  pose proof (Handle_new_pattern method pattern handler s Hp) as H.
  simpl in H. unfold http.table_Handle in H.
  apply String.eqb_neq in Hne. rewrite Hne, Hc, Hp in H.
  destruct H as (s' & H & _). by exists s'.
Qed.

(** Over the table matcher a request that no registered pattern matches
    is answered 404. *)
Lemma table_ServeHTTP_NotFound s r :
  coherent s ->
  (∀ p l, sh_handlers s !! p = Some l -> http.pathMatch p (http.Path r) = false) ->
  ServeHTTP s r = Ok http.NotFound.
Proof.
  intros Hc H. unfold ServeHTTP. simpl. rewrite Hc.
  pose proof (table_match_spec (sh_handlers s) (http.Path r)) as Hm.
  destruct (http.table_match _ _) as [[k v]|]; [|done].
  destruct Hm as (Hk & Hkm & _). by rewrite (H _ _ Hk) in Hkm.
Qed.

(** Over the table matcher a request for the very path of a registered
    pattern is resolved to the node of that pattern. *)
Lemma table_routes_self s p l method :
  coherent s -> sh_handlers s !! p = Some l -> p ≠ "" ->
  routes s p {| http.Method := method; http.Path := p |}.
Proof.
  intros Hc Hp Hne. exists l. split; [done|]. simpl. rewrite Hc.
  pose proof (table_match_spec (sh_handlers s) p) as Hm.
  destruct (http.table_match _ _) as [[k v]|]; simpl.
  - destruct Hm as (Hk & Hkm & Hmax).
    pose proof (Hmax _ _ Hp (pathMatch_self p Hne)) as Hle.
    apply pathMatch_full in Hkm; [|done]. subst k. congruence.
  - pose proof (pathMatch_self p Hne) as Hself.
    by rewrite (Hm _ _ Hp) in Hself.
Qed.

End TableRouterFacts.

(** Registering [GET /users] and then [POST /users] on a new router: both
    are served by their own handlers. *)
Lemma Handle_registration_witness :
  Demo.handle_ "GET" "/users" "list" Demo.router = Ok Demo.users1 ∧
  ∃ s2, Demo.handle_ "POST" "/users" "create" Demo.users1 = Ok s2 ∧
        Demo.serve s2 "GET" "/users" = Ok (http.Delegate "list") ∧
        Demo.serve s2 "POST" "/users" = Ok (http.Delegate "create").
Proof.
  assert (Demo.handle_ "GET" "/users" "list" Demo.router = Ok Demo.users1) as H1
    by (vm_compute; reflexivity).
  split; [exact H1|].
  destruct (Handle_registration "GET" "/users" "list" Demo.router)
    as (_ & _ & _ & H & _).
  destruct (H "POST" "create" Demo.users1) as (s2 & H2 & Hserve).
  - discriminate.
  - vm_compute; reflexivity.
  - exact H1.
  - exists s2. split; [exact H2|].
    assert (routes s2 ("" +:+ "/users") (Demo.GET "/users")) as RG.
    { vm_compute in H2. injection H2 as <-. exists 0. split; vm_compute; reflexivity. }
    assert (routes s2 ("" +:+ "/users") (Demo.POST "/users")) as RP.
    { vm_compute in H2. injection H2 as <-. exists 0. split; vm_compute; reflexivity. }
    split.
    + apply (proj1 (Hserve _ RG)). reflexivity.
    + apply (proj2 (Hserve _ RP)). reflexivity.
Defined.


(** C7, as the specification words it, fails: of the two slashes that end
    ["/api//"] one is left. *)
Lemma SetPathPrefix_leaves_a_slash :
  PathPrefix (SetPathPrefix "/api//" Demo.router) = "/api/" ∧
  ¬ ends_with_slash (PathPrefix (SetPathPrefix "/api//" Demo.router)) = false.
Proof. split; [reflexivity | discriminate]. Qed.

Lemma SetPathPrefix_strips_one_slash_witness :
  PathPrefix (SetPathPrefix "/api/" Demo.router) = "/api" ∧
  PathPrefix (SetPathPrefix "/api" Demo.router) = "/api".
Proof.
  split.
  - apply (proj1 (SetPathPrefix_strips_one_slash "/api/" Demo.router) "/api").
    reflexivity.
  - apply (proj1 (proj2 (SetPathPrefix_strips_one_slash "/api" Demo.router))).
    reflexivity.
Defined.

(** [GET /users] registered without a prefix stays where it is when the
    prefix becomes ["/api"], and [POST /users] registered afterwards goes
    under ["/api/users"]. *)
Lemma Handle_prefix_at_registration_witness :
  ∃ s3, Demo.handle_ "POST" "/users" "create" (SetPathPrefix "/api/" Demo.users1) = Ok s3 ∧
        (∃ vm, verbs_of s3 "/api/users" = Some vm ∧ vm !! "POST" = Some "create") ∧
        (∃ vm, verbs_of s3 "/users" = Some vm ∧ vm !! "GET" = Some "list") ∧
        Demo.serve (SetPathPrefix "/api/" Demo.users1) "GET" "/users" =
        Demo.serve Demo.users1 "GET" "/users".
Proof.
  assert (router_wf Demo.router) as Hwf.
  { split; intros *; vm_compute; discriminate. }
  assert (Demo.handle_ "GET" "/users" "list" Demo.router = Ok Demo.users1) as H1
    by (vm_compute; reflexivity).
  destruct (Handle_prefix_at_registration
              "GET" "/users" "list" Demo.router Demo.users1 Hwf H1)
    as ((vm & Hvm & Hget) & Hset & Hlater).
  destruct (Demo.handle_ "POST" "/users" "create" (SetPathPrefix "/api/" Demo.users1))
    as [s3|msg] eqn:H3; [|vm_compute in H3; discriminate].
  exists s3. split; [reflexivity|].
  destruct (Hlater "/api/" "POST" "/users" "create" s3 H3) as (Hpost & Hkeep & _).
  split; [exact Hpost|]. split.
  - exact (Hkeep _ _ _ _ Hvm Hget).
  - apply (proj2 (proj2 (proj2 (Hset "/api/")))).
Defined.

(** ** Component dispatch *)

Section DispatchFacts.

Context {Handler M : Type}.

Implicit Types (w : World Handler M) (env : ServerEnvironment Handler M).
Implicit Types (rh : ResourceHandler Handler M) (c : Component).

(** The loop over indices, from [k - 1] down to [0], walks the first [k]
    handlers from the last to the first. *)
Lemma handle_loop_take (rhs : list (ResourceHandler Handler M)) c k w :
  k ≤ length rhs ->
  handle_loop rhs c k w = first_claim (reverse (take k rhs)) c w.
Proof.
  revert w. induction k as [|i IH]; intros w Hk; [done|].
  destruct (lookup_lt_is_Some_2 rhs i) as [rh Hrh]; [lia|].
  rewrite (take_S_r rhs i rh Hrh), reverse_snoc. simpl. rewrite Hrh.
  unfold mbind, go_bind.
  destruct (rh_Handle rh c w) as [[[] w']|msg]; [done| |done].
  apply IH. lia.
Qed.

Lemma handle_first_claim env c w :
  handle env c w = first_claim (reverse (resourceHandlers env)) c w.
Proof.
  unfold handle. rewrite handle_loop_take by done. by rewrite firstn_all.
Qed.

Lemma handle_all_spec env cs w :
  handle_all env cs w = dispatch_spec (reverse (resourceHandlers env)) cs w.
Proof.
  revert w. induction cs as [|c cs IH]; intros w; [done|]. simpl.
  unfold mbind, go_bind. rewrite handle_first_claim.
  destruct (first_claim _ c w) as [[[] w']|msg]; [|done]. apply IH.
Qed.

Lemma handle_all_app env cs1 cs2 w :
  handle_all env (cs1 ++ cs2) w =
  (_ ← handle_all env cs1; handle_all env cs2) w.
Proof.
  revert w. induction cs1 as [|c cs1 IH]; intros w; [done|]. simpl.
  unfold mbind, go_bind in *.
  destruct (handle env c w) as [[[] w']|msg]; [|done]. apply IH.
Qed.

(** The handler added last is asked first; when it claims the component
    nobody else is asked. *)
Lemma handle_last_claims env c w w' rhs rh :
  resourceHandlers env = rhs ++ [rh] ->
  rh_Handle rh c w = Ok (true, w') ->
  handle env c w = Ok (tt, w').
Proof.
  intros Hrhs Hrh. rewrite handle_first_claim, Hrhs, reverse_snoc. simpl.
  unfold mbind, go_bind. by rewrite Hrh.
Qed.

Lemma first_claim_declined (chain : list (ResourceHandler Handler M)) c w :
  (∀ rh, rh ∈ chain -> rh_Handle rh c w = Ok (false, w)) ->
  first_claim chain c w = Ok (tt, logged (could_not_handle c) w).
Proof.
  induction chain as [|rh chain IH]; intros H; [done|]. simpl.
  unfold mbind, go_bind. rewrite (H rh) by apply list_elem_of_here.
  apply IH. intros rh' Hin. apply H. by apply list_elem_of_further.
Qed.

(** A component that every handler declines costs a warning, nothing
    else. *)
Lemma handle_declined env c w :
  (∀ rh, rh ∈ resourceHandlers env -> rh_Handle rh c w = Ok (false, w)) ->
  handle env c w = Ok (tt, logged (could_not_handle c) w).
Proof.
  intros H. rewrite handle_first_claim. apply first_claim_declined.
  intros rh Hin. apply H. by apply elem_of_reverse.
Qed.

Lemma handle_all_declined env cs w :
  (∀ c rh w0, c ∈ cs -> rh ∈ resourceHandlers env ->
              rh_Handle rh c w0 = Ok (false, w0)) ->
  handle_all env cs w =
  Ok (tt, {| ServerHandler := ServerHandler w;
             log := log w ++ map could_not_handle cs |}).
Proof.
  revert w. induction cs as [|c cs IH]; intros w H; simpl.
  - rewrite app_nil_r. by destruct w.
  - unfold mbind, go_bind. rewrite handle_declined.
    + rewrite IH.
      * simpl. by rewrite <- app_assoc.
      * intros c' rh w0 Hc. apply H. by apply list_elem_of_further.
    + intros rh Hin. apply H; [apply list_elem_of_here | done].
Qed.

Lemma resources_buf_lines prefix cs buf :
  resources_buf prefix cs buf = buf +:+ join (resource_lines prefix cs).
Proof.
  revert buf. induction cs as [|c cs IH]; intros buf; simpl.
  - induction buf as [|x buf IHb]; [done|].
    change (String x buf = String x (buf +:+ "")). by f_equal.
  - unfold resource_lines in *. simpl.
    destruct (as_Resource c) as [res|]; simpl; [|apply IH].
    rewrite IH. apply append_assoc.
Qed.

(** C3.  [onStarting] handles the registered components one after the
    other, in registration order, and then lists the resources; handling a
    component asks the resource handlers from the one added last to the one
    added first and stops at the first that claims it; a component that the
    last handler claims is wired by that handler; a component that every
    handler declines adds a warning with its type to the log, and the
    components after it are handled all the same. *)
Theorem onStarting_dispatch env w :
  onStarting env w =
    (_ ← dispatch_spec (reverse (resourceHandlers env)) (components env);
     logResources env) w ∧
  (∀ c w0, handle env c w0 = first_claim (reverse (resourceHandlers env)) c w0) ∧
  (∀ cs1 cs2 w0,
      handle_all env (cs1 ++ cs2) w0 =
      (_ ← handle_all env cs1; handle_all env cs2) w0) ∧
  (∀ c w0 w' rhs rh,
      resourceHandlers env = rhs ++ [rh] -> rh_Handle rh c w0 = Ok (true, w') ->
      handle env c w0 = Ok (tt, w')) ∧
  (∀ c cs w0,
      (∀ rh, rh ∈ resourceHandlers env -> rh_Handle rh c w0 = Ok (false, w0)) ->
      handle env c w0 = Ok (tt, logged (could_not_handle c) w0) ∧
      handle_all env (c :: cs) w0 =
      handle_all env cs (logged (could_not_handle c) w0)) ∧
  (∀ cs w0,
      (∀ c rh w1, c ∈ cs -> rh ∈ resourceHandlers env ->
                  rh_Handle rh c w1 = Ok (false, w1)) ->
      handle_all env cs w0 =
      Ok (tt, {| ServerHandler := ServerHandler w0;
                 log := log w0 ++ map could_not_handle cs |})) ∧
  (∀ c, level (could_not_handle c) = WARN ∧
        message (could_not_handle c) =
        "Could not handle " +:+ fmt_v c +:+ " (" +:+ fmt_T c +:+ ")").
Proof.
  split; [|split; [|split; [|split; [|split; [|split]]]]].
  - unfold onStarting, mbind, go_bind. by rewrite handle_all_spec.
  - intros c w0. apply handle_first_claim.
  - intros cs1 cs2 w0. apply handle_all_app.
  - intros c w0 w' rhs rh. apply handle_last_claims.
  - intros c cs w0 H. pose proof (handle_declined env c w0 H) as Hc.
    split; [done|]. simpl. unfold mbind, go_bind. by rewrite Hc.
  - intros cs w0. apply handle_all_declined.
  - done.
Qed.

Lemma count_ascii_only s :
  utf8.ascii_only s = true -> utf8.count 0 s = String.length s.
Proof.
  induction s as [|c s IH]; [done|]. simpl.
  intros [Hc Hs]%andb_prop. unfold utf8.width. rewrite Hc. simpl.
  by rewrite IH.
Qed.

(** C9, as the code has it.  [logResources] writes one INFO entry: the
    heading, then one line for each registered component that is a
    [Resource], in registration order, with the method in a field of seven
    characters (spaces follow a method of fewer runes; for an ASCII method
    runes are bytes), the prefix of the router followed by the path of the
    resource, and the type of the component.  The resource handlers take no
    part in it: a resource is listed whether a handler claimed it or not. *)
Theorem logResources_listing env w :
  logResources env w =
    Ok (tt, logged (entry INFO ("resources =" +:+ nl +:+ nl +:+
              join (resource_lines (PathPrefix (ServerHandler w)) (components env)))) w) ∧
  (∀ w', handle_all env (components env) w = Ok (tt, w') ->
         onStarting env w =
         Ok (tt, logged (entry INFO ("resources =" +:+ nl +:+ nl +:+
                   join (resource_lines (PathPrefix (ServerHandler w')) (components env)))) w')) ∧
  (∀ prefix c res cs,
      as_Resource c = Some res ->
      resource_lines prefix (c :: cs) =
      ("    " +:+ pad7 (res_Method res) +:+ " " +:+ prefix +:+ res_Path res +:+
       " (" +:+ fmt_T c +:+ ")" +:+ nl) :: resource_lines prefix cs) ∧
  (∀ prefix c cs,
      as_Resource c = None ->
      resource_lines prefix (c :: cs) = resource_lines prefix cs) ∧
  (∀ rhs,
      logResources {| components := components env; resourceHandlers := rhs |} w =
      logResources env w) ∧
  (∀ verb, pad7 verb = verb +:+ spaces (7 - utf8.RuneCountInString verb)) ∧
  (∀ verb, utf8.ascii_only verb = true ->
           pad7 verb = verb +:+ spaces (7 - String.length verb)).
Proof.
  assert (∀ w0, logResources env w0 =
    Ok (tt, logged (entry INFO ("resources =" +:+ nl +:+ nl +:+
              join (resource_lines (PathPrefix (ServerHandler w0)) (components env)))) w0))
    as Hlog.
  { intros w0. unfold logResources, write, logged.
    by rewrite resources_buf_lines. }
  split; [|split; [|split; [|split; [|split; [|split]]]]].
  - apply Hlog.
  - intros w' H. unfold onStarting, mbind, go_bind. rewrite H. apply Hlog.
  - intros prefix c res cs H. unfold resource_lines. simpl. by rewrite H.
  - intros prefix c cs H. unfold resource_lines. simpl. by rewrite H.
  - done.
  - done.
  - intros verb H. unfold pad7, utf8.RuneCountInString.
    by rewrite count_ascii_only.
Qed.

End DispatchFacts.

(** With two handlers that both claim resources, the one added last wires
    [users], under its own prefix; [task], which nobody claims, is warned
    about and does not stop the dispatch. *)
Lemma onStarting_dispatch_witness :
  handle Demo.overridden Demo.users Demo.world = Ok (tt, Demo.wired) ∧
  Demo.serve (ServerHandler Demo.wired) "GET" "/v2/users" = Ok (http.Delegate "second") ∧
  Demo.serve (ServerHandler Demo.wired) "GET" "/users" = Ok http.NotFound ∧
  handle_all Demo.overridden [Demo.task; Demo.users] Demo.world =
  handle_all Demo.overridden [Demo.users] (logged (could_not_handle Demo.task) Demo.world).
Proof.
  destruct (onStarting_dispatch Demo.overridden Demo.world)
    as (_ & _ & _ & Hlast & Hnone & _).
  split; [|split; [|split]].
  - apply (Hlast Demo.users Demo.world Demo.wired [Demo.wires "" "first"]
             (Demo.wires "/v2" "second")); [reflexivity|].
    vm_compute. reflexivity.
  - vm_compute; reflexivity.
  - vm_compute; reflexivity.
  - apply Hnone. intros rh Hin.
    apply elem_of_cons in Hin as [->|Hin]; [reflexivity|].
    apply elem_of_cons in Hin as [->|Hin]; [reflexivity|].
    by apply not_elem_of_nil in Hin.
Defined.

(** C9, as the specification words it, fails: without resource handlers
    nobody claims [users], which is warned about, and [users] is listed. *)
Lemma logResources_lists_unclaimed :
  claimed_in (reverse (resourceHandlers Demo.bare)) Demo.users Demo.world = false ∧
  ∃ w', onStarting Demo.bare Demo.world = Ok (tt, w') ∧
        log w' = [could_not_handle Demo.users;
                  entry INFO ("resources =" +:+ nl +:+ nl +:+
                              "    GET     /users (*main.Users)" +:+ nl)].
Proof.
  split; [reflexivity|]. eexists. split; vm_compute; reflexivity.
Qed.

(** The listing of [Demo.overridden]: [users] once, [task] not at all.  A
    verb of six characters in seven bytes is followed by one space of
    padding and the separating space. *)
Lemma logResources_listing_witness :
  resource_lines "/api" (components Demo.overridden) =
  ["    GET     /api/users (*main.Users)" +:+ nl] ∧
  resource_lines "" [Demo.konten] =
  ["    PRÜFEN  /konten (*main.Konten)" +:+ nl] ∧
  pad7 "GET" = "GET    ".
Proof.
  destruct (logResources_listing Demo.overridden Demo.world)
    as (_ & _ & Hres & Hnot & _ & _ & Hascii).
  split; [|split].
  - change (components Demo.overridden) with [Demo.task; Demo.users].
    rewrite (Hnot "/api" Demo.task [Demo.users]) by reflexivity.
    rewrite (Hres "/api" Demo.users _ [] eq_refl).
    reflexivity.
  - rewrite (Hres "" Demo.konten _ [] eq_refl). reflexivity.
  - rewrite (Hascii "GET") by reflexivity. reflexivity.
Defined.

(** ** The managed server *)

Section ServerFacts.

Context {L : Type} `{NL : NetListener L}.

Implicit Types (server : DefaultServer L) (connector : DefaultServerConnector L).
Implicit Types (received rest : list Received) (lg : list LogEntry).

Lemma run_Start_go (cs : list (DefaultServerConnector L)) k received :
  run (Start_go cs k) received = run k received.
Proof. induction cs as [|c cs IH]; simpl; done. Qed.

Lemma spawned_Start_wait i : spawned (Start_wait (L := L) i) = [].
Proof. by destruct i. Qed.

Lemma spawned_Start_go (cs : list (DefaultServerConnector L)) k :
  spawned (Start_go cs k) = cs ++ spawned k.
Proof. induction cs as [|c cs IH]; simpl; [done | by rewrite IH]. Qed.

(** Each [nil] received from a connector takes one turn of the loop. *)
Lemma run_Start_wait_nil i k rest :
  k ≤ i ->
  run (Start_wait (L := L) i) (replicate k (FromErrorChan None) ++ rest) =
  run (Start_wait (L := L) (i - k)) rest.
Proof.
  revert i. induction k as [|k IH]; intros i Hk; simpl.
  - by rewrite Nat.sub_0_r.
  - destruct i as [|i]; [lia|]. simpl. apply IH. lia.
Qed.

Lemma Stop_loop_spec (cs done : list (DefaultServerConnector L)) lg :
  Stop_loop cs done lg =
  (done ++ map (fun c => snd (Connector_Stop c)) cs,
   lg ++ omap (fun c => error_closing <$> fst (Connector_Stop c)) cs).
Proof.
  revert done lg. induction cs as [|c cs IH]; intros done lg; simpl.
  - by rewrite !app_nil_r.
  - destruct (Connector_Stop c) as [err c'] eqn:E. rewrite IH. simpl.
    rewrite <- app_assoc. f_equal.
    destruct err as [e|]; simpl; [by rewrite <- app_assoc | done].
Qed.

Lemma Stop_spec server lg :
  Stop server lg =
  (None,
   {| Connectors := map (fun c => snd (Connector_Stop c)) (Connectors server) |},
   lg ++ omap (fun c => error_closing <$> fst (Connector_Stop c)) (Connectors server)).
Proof. unfold Stop. by rewrite Stop_loop_spec. Qed.

Lemma Stop_idle (cs : list (DefaultServerConnector L)) :
  (∀ connector, connector ∈ cs -> listener connector = None) ->
  map (fun c => snd (Connector_Stop c)) cs = cs ∧
  omap (fun c => error_closing <$> fst (Connector_Stop c)) cs = [].
Proof.
  induction cs as [|c cs IH]; intros H; [done|]. simpl.
  assert (Connector_Stop c = (None, c)) as ->.
  { unfold Connector_Stop. rewrite (H c); [done | apply list_elem_of_here]. }
  simpl. destruct IH as [IH1 IH2].
  { intros c' Hin. apply H. by apply list_elem_of_further. }
  split; [by f_equal | exact IH2].
Qed.

(** C4.  [Start] has one [go] statement for each connector, in order, and
    then waits.  After fewer [nil] results than there are connectors, a
    connector error is returned at once and an interrupt makes it return
    [nil] at once, whatever would be received later; after a [nil] result
    from each connector it returns [nil]; before that, with only [nil]
    results, it is still waiting. *)
Theorem Start_first_outcome server :
  spawned (Start server) = Connectors server ∧
  (∀ k e rest,
      k < length (Connectors server) ->
      run (Start server)
          (replicate k (FromErrorChan None) ++ FromErrorChan (Some e) :: rest) =
      Some (Some e)) ∧
  (∀ k rest,
      k < length (Connectors server) ->
      run (Start server)
          (replicate k (FromErrorChan None) ++ FromSigChan Interrupt :: rest) =
      Some None) ∧
  (∀ rest,
      run (Start server)
          (replicate (length (Connectors server)) (FromErrorChan None) ++ rest) =
      Some None) ∧
  (∀ k,
      k < length (Connectors server) ->
      run (Start server) (replicate k (FromErrorChan None)) = None).
Proof.
  unfold Start. split; [|split; [|split; [|split]]].
  - by rewrite spawned_Start_go, spawned_Start_wait, app_nil_r.
  - intros k e rest Hk. rewrite run_Start_go, run_Start_wait_nil by lia.
    destruct (length (Connectors server) - k) as [|i] eqn:E; [lia|]. done.
  - intros k rest Hk. rewrite run_Start_go, run_Start_wait_nil by lia.
    destruct (length (Connectors server) - k) as [|i] eqn:E; [lia|]. done.
  - intros rest. rewrite run_Start_go, run_Start_wait_nil by lia.
    by rewrite Nat.sub_diag.
  - intros k Hk. rewrite run_Start_go.
    rewrite <- (app_nil_r (replicate k _)), run_Start_wait_nil by lia.
    destruct (length (Connectors server) - k) as [|i] eqn:E; [lia|]. done.
Qed.

(** C5.  Without connectors [Start] is [return nil]: it starts nothing,
    does not wait, and returns [nil] whatever is or is not sent to it. *)
Theorem Start_no_connectors server :
  Connectors server = [] ->
  Start server = Return None ∧
  blocks (Start server) = false ∧
  ∀ received, run (Start server) received = Some None.
Proof. unfold Start. intros ->. done. Qed.

(** C6.  [Stop] stops every connector, in order, logs a warning for each
    one whose [Stop] returns an error and goes on; it returns [nil], the
    first time and the second; the [Stop] of a connector that has no
    listener does nothing and returns [nil].  The entry logged for an error
    is a warning of the server's logger that carries the error. *)
Theorem Stop_best_effort server lg :
  Stop server lg =
    (None,
     {| Connectors := map (fun c => snd (Connector_Stop c)) (Connectors server) |},
     lg ++ omap (fun c => error_closing <$> fst (Connector_Stop c)) (Connectors server)) ∧
  (∀ server' lg',
      Stop server lg = (None, server', lg') ->
      ∃ server'' lg'', Stop server' lg' = (None, server'', lg'')) ∧
  (∀ connector, listener connector = None ->
                Connector_Stop connector = (None, connector)) ∧
  ((∀ connector, connector ∈ Connectors server -> listener connector = None) ->
   Stop server lg = (None, server, lg)) ∧
  (∀ configurations,
      Stop (AddConnectors configurations NewServer) lg =
      (None, AddConnectors configurations NewServer, lg)) ∧
  (∀ err, logger (error_closing err) = "gomelon.server" ∧
          level (error_closing err) = WARN ∧
          message (error_closing err) = "error closing connector: " +:+ err).
Proof.
  assert (∀ server0,
    (∀ connector, connector ∈ Connectors server0 -> listener connector = None) ->
    Stop server0 lg = (None, server0, lg)) as Hidle.
  { intros [cs] H. rewrite Stop_spec. simpl in *.
    destruct (Stop_idle cs H) as [-> ->]. by rewrite app_nil_r. }
  split; [|split; [|split; [|split; [|split]]]].
  - apply Stop_spec.
  - intros server' lg' _. rewrite Stop_spec. eauto.
  - intros connector H. unfold Connector_Stop. by rewrite H.
  - apply Hidle.
  - intros configurations. apply Hidle. simpl.
    intros connector (cc & -> & _)%list_elem_of_fmap. done.
  - done.
Qed.

End ServerFacts.

(** Two connectors, the second of which fails to bind: its error is
    returned although nothing more is received. *)
Lemma Start_first_outcome_witness :
  run (Start Demo.server)
      [FromErrorChan None; FromErrorChan (Some "listen tcp :8081: bind: address already in use")] =
  Some (Some "listen tcp :8081: bind: address already in use") ∧
  run (Start Demo.server) [FromSigChan Interrupt] = Some None ∧
  run (Start Demo.server) [FromErrorChan None] = None.
Proof.
  destruct (Start_first_outcome Demo.server) as (_ & Herr & Hint & _ & Hwait).
  split; [|split].
  - apply (Herr 1 _ []). simpl. lia.
  - apply (Hint 0 []). simpl. lia.
  - apply (Hwait 1). simpl. lia.
Defined.

Lemma Start_no_connectors_witness :
  Start (NewServer (L := TCPListener)) = Return None.
Proof. apply (Start_no_connectors NewServer). reflexivity. Defined.

(** The first [Stop] closes the listener of the second connector; the
    second [Stop] closes it again, logs the error and returns [nil]. *)
Lemma Stop_best_effort_witness :
  Connector_Stop (NL := TCP) Demo.idle = (None, Demo.idle) ∧
  ∃ server', Stop (NL := TCP) Demo.server [] = (None, server', []) ∧
             Stop (NL := TCP) server' [] =
             (None, server',
              [ {| logger := "gomelon.server"; level := WARN;
                   message := "error closing connector: use of closed network connection" |} ]).
Proof.
  destruct (Stop_best_effort (NL := TCP) Demo.server []) as (H1 & _ & Hidle & _).
  split; [apply Hidle; reflexivity|].
  eexists. split; [exact H1|]. vm_compute. reflexivity.
Defined.

(** ** The server command *)

Ltac run_steps :=
  unfold Run, Run_body, starting, printBanner, if_err, defer, call, logf, return_,
    mbind, cmd_bind, mret, cmd_ret;
  simpl.

(** C8, as the code has it.  [Run] stops at the first collaborator that
    fails and returns its error.  Its order is: parse the configuration,
    create the environment, build the server, print the banner, run the
    bundles, run the application, mark the environment starting, start the
    server; when the server has returned, stop it and then mark the
    environment stopped; what the server returned is returned. *)
Theorem Run_sequence bootstrap :
  (∀ e, configuredCommand_Run bootstrap = Some e ->
        Run bootstrap = ([ParseConfiguration], Some e)) ∧
  (configuredCommand_Run bootstrap = None ->
   (∀ e, environmentCommand_Run bootstrap = Some e ->
         Run bootstrap = ([ParseConfiguration; CreateEnvironment], Some e)) ∧
   (environmentCommand_Run bootstrap = None ->
    (∀ e, ServerFactory_BuildServer bootstrap = Some e ->
          Run bootstrap =
          ([ParseConfiguration; CreateEnvironment; BuildServer;
            Log (entry ERROR ("could not create server: " +:+ e))], Some e)) ∧
    (ServerFactory_BuildServer bootstrap = None ->
     (∀ e, bootstrap_run bootstrap = Some e ->
           Run bootstrap =
           ([ParseConfiguration; CreateEnvironment; BuildServer;
             starting bootstrap; RunBundles;
             Log (entry ERROR ("could not run bootstrap: " +:+ e))], Some e)) ∧
     (bootstrap_run bootstrap = None ->
      (∀ e, Application_Run bootstrap = Some e ->
            Run bootstrap =
            ([ParseConfiguration; CreateEnvironment; BuildServer;
              starting bootstrap; RunBundles; RunApplication;
              Log (entry ERROR ("could not run application: " +:+ e))], Some e)) ∧
      (Application_Run bootstrap = None ->
       Run bootstrap =
       ([ParseConfiguration; CreateEnvironment; BuildServer;
         starting bootstrap; RunBundles; RunApplication; SetStarting; ServerStart] ++
        match Server_Start bootstrap with
        | Some e => [Log (entry ERROR ("could not start server: " +:+ e))]
        | None => []
        end ++ [ServerStop; SetStopped],
        Server_Start bootstrap)))))).
Proof.
  destruct bootstrap as [cfg env build bundles app start stop name banner].
  simpl. split.
  { intros e ->. reflexivity. }
  intros ->. split.
  { intros e ->. reflexivity. }
  intros ->. split.
  { intros e ->. reflexivity. }
  intros ->. split.
  { intros e ->. run_steps. by destruct (negb (String.eqb banner "")). }
  intros ->. split.
  { intros e ->. run_steps. by destruct (negb (String.eqb banner "")). }
  intros ->. run_steps.
  destruct (negb (String.eqb banner "")); by destruct start.
Qed.

(** C8, as the specification words it, fails: the banner is printed
    before the bundles and the application are run, not after. *)
Lemma Run_banner_before_bundles :
  fst (Run quiet) =
    [ParseConfiguration; CreateEnvironment; BuildServer; starting quiet;
     RunBundles; RunApplication; SetStarting; ServerStart; ServerStop; SetStopped] ∧
  ¬ follows RunApplication (starting quiet) (fst (Run quiet)).
Proof.
  split; [reflexivity|].
  intros (i & j & Hi & Hj & Hlt).
  change (fst (Run quiet)) with
    [ParseConfiguration; CreateEnvironment; BuildServer; starting quiet;
     RunBundles; RunApplication; SetStarting; ServerStart; ServerStop; SetStopped]
    in Hi, Hj.
  assert (i = 5) as ->.
  { do 10 (destruct i as [|i]; simpl in Hi;
           [try discriminate Hi; try reflexivity|]).
    discriminate Hi. }
  assert (j = 3) as ->.
  { do 10 (destruct j as [|j]; simpl in Hj;
           [try discriminate Hj; try reflexivity|]).
    discriminate Hj. }
  lia.
Qed.

(** A run whose bundles fail: the banner was printed already. *)
Lemma Run_sequence_witness :
  Run {| configuredCommand_Run := None; environmentCommand_Run := None;
         ServerFactory_BuildServer := None; bootstrap_run := Some "no database";
         Application_Run := None; Server_Start := None; Server_Stop := None;
         environment_Name := "app"; readBanner := "" |} =
  ([ParseConfiguration; CreateEnvironment; BuildServer;
    Log (entry INFO "starting app"); RunBundles;
    Log (entry ERROR "could not run bootstrap: no database")], Some "no database").
Proof.
  set (b := {| configuredCommand_Run := None; environmentCommand_Run := None;
               ServerFactory_BuildServer := None; bootstrap_run := Some "no database";
               Application_Run := None; Server_Start := None; Server_Stop := None;
               environment_Name := "app"; readBanner := "" |}).
  destruct (Run_sequence b) as (_ & H).
  destruct (H eq_refl) as (_ & H1).
  destruct (H1 eq_refl) as (_ & H2).
  destruct (H2 eq_refl) as (H3 & _).
  exact (H3 "no database" eq_refl).
Defined.

(** * Further properties *)

(** ** The method router *)

Section RouterMore.

Context {Handler M : Type} `{PM : http.PathMatcher M nat}.

Implicit Types (s : DefaultServerHandler Handler M) (r : http.Request).
Implicit Types (method pattern prefix : string) (handler : Handler).

(** The method table of the pattern after a successful [Handle]. *)
Lemma Handle_verbs_exact method pattern handler s s' :
  Handle method pattern handler s = Ok s' ->
  verbs_of s' (pathPrefix s +:+ pattern) =
  Some (<[method := handler]>
          (default ∅ (verbs_of s (pathPrefix s +:+ pattern)))).
Proof.
  intros H. apply Handle_inv in H as [(l & h & Hp & Hl & Hm & ->)|(Hp & mux & _ & ->)];
    unfold verbs_of; simpl.
  - rewrite Hp; simpl. rewrite Hl; simpl.
    by rewrite list_lookup_insert_eq by (by eapply lookup_lt_Some).
  - rewrite lookup_insert_eq, Hp; simpl.
    by rewrite list_lookup_middle.
Qed.

(** X1.  On a well-formed router [Handle] panics in two cases only: the
    pattern has a handler for the method already, and the message names the
    pattern; or the pattern is new and the path matcher panics, with the
    message of the path matcher. *)
Theorem Handle_panics_iff method pattern handler s msg :
  router_wf s ->
  Handle method pattern handler s = Panic msg <->
  ((∃ vm h0, verbs_of s (pathPrefix s +:+ pattern) = Some vm ∧
             vm !! method = Some h0) ∧
   msg = "http: multiple registrations for " +:+ pathPrefix s +:+ pattern) ∨
  (sh_handlers s !! (pathPrefix s +:+ pattern) = None ∧
   http.mux_Handle (ServeMux s) (pathPrefix s +:+ pattern) (length (nodes s)) =
   Panic msg).
Proof.
  intros [Hlt _]. split.
  - unfold Handle, verbs_of.
    destruct (sh_handlers s !! (pathPrefix s +:+ pattern)) as [l|] eqn:Hp; simpl.
    + destruct (lookup_lt_is_Some_2 (nodes s) l) as [h Hl]; [by eapply Hlt|].
      rewrite Hl. simpl.
      destruct (handlers h !! method) as [h0|] eqn:Hm; [|done].
      intros [= <-]. left. split; [|done]. by exists (handlers h), h0.
    + destruct (http.mux_Handle _ _ _) as [mux|msg'] eqn:Hmux; [done|].
      intros [= <-]. by right.
  - intros [[(vm & h0 & Hvm & Hm) ->]|[Hp Hmux]].
    + by eapply Handle_duplicate.
    + unfold Handle. rewrite Hp. simpl. by rewrite Hmux.
Qed.

Lemma built_nodes_nonempty s :
  built s -> Forall (fun h => handlers h ≠ ∅) (nodes s).
Proof.
  induction 1 as [|method pattern handler s s' _ IH H|prefix s _ IH].
  - constructor.
  - apply Handle_inv in H as [(l & h & _ & _ & _ & ->)|(_ & mux & _ & ->)]; simpl.
    + apply Forall_insert; [done|]. simpl. apply insert_non_empty.
    + apply Forall_app. split; [done|]. constructor; [|constructor].
      simpl. apply map_non_empty_singleton.
  - by destruct (SetPathPrefix_frame prefix s) as (_ & _ & ->).
Qed.

(** X2.  In a router made by [NewServerHandler], [Handle] and
    [SetPathPrefix] every registered pattern has a handler for at least one
    method: no pattern answers 405 to every method. *)
Theorem built_verbs_nonempty s pattern vm :
  built s -> verbs_of s pattern = Some vm ->
  vm ≠ ∅ ∧ ∃ method handler, vm !! method = Some handler.
Proof.
  intros Hb Hvm. assert (vm ≠ ∅) as Hne.
  { unfold verbs_of in Hvm.
    destruct (sh_handlers s !! pattern) as [l|]; [|done]. simpl in Hvm.
    destruct (nodes s !! l) as [h|] eqn:Hl; [|done]. injection Hvm as <-.
    by apply (Forall_lookup_1 _ _ _ _ (built_nodes_nonempty s Hb) Hl). }
  split; [done|].
  destruct (map_choose vm Hne) as (method & handler & H). eauto.
Qed.

(** X3.  Two registrations commute: when both orders succeed, every
    pattern has the same method table after either. *)
Theorem Handle_commute m1 p1 h1 m2 p2 h2 s sa sab sb sba :
  router_wf s ->
  Handle m1 p1 h1 s = Ok sa -> Handle m2 p2 h2 sa = Ok sab ->
  Handle m2 p2 h2 s = Ok sb -> Handle m1 p1 h1 sb = Ok sba ->
  ∀ q, verbs_of sab q = verbs_of sba q.
Proof.
  intros Hwf Ha Hab Hb Hba q.
  pose proof (Handle_wf _ _ _ _ _ Hwf Ha) as Hwfa.
  pose proof (Handle_wf _ _ _ _ _ Hwf Hb) as Hwfb.
  pose proof (Handle_prefix _ _ _ _ _ Ha) as Hpa.
  pose proof (Handle_prefix _ _ _ _ _ Hb) as Hpb.
  assert (pathPrefix s +:+ p1 = pathPrefix s +:+ p2 -> m2 ≠ m1) as Hne.
  { intros E <-.
    destruct (Handle_verbs _ _ _ _ _ Ha) as (vm & Hvm & Hm & _).
    rewrite E, <- Hpa in Hvm.
    by rewrite (Handle_duplicate m2 p2 h2 sa vm h1 Hvm Hm) in Hab. }
  pose proof (Handle_verbs_exact _ _ _ _ _ Ha) as Ea.
  pose proof (Handle_verbs_exact _ _ _ _ _ Hb) as Eb.
  pose proof (Handle_verbs_exact _ _ _ _ _ Hab) as Eab.
  pose proof (Handle_verbs_exact _ _ _ _ _ Hba) as Eba.
  pose proof (fun q0 => Handle_frame _ _ _ _ _ q0 Hwf Ha) as Fa.
  pose proof (fun q0 => Handle_frame _ _ _ _ _ q0 Hwf Hb) as Fb.
  pose proof (fun q0 => Handle_frame _ _ _ _ _ q0 Hwfa Hab) as Fab.
  pose proof (fun q0 => Handle_frame _ _ _ _ _ q0 Hwfb Hba) as Fba.
  rewrite Hpa in Eab, Fab. rewrite Hpb in Eba, Fba.
  remember (pathPrefix s +:+ p1) as pa eqn:Epa.
  remember (pathPrefix s +:+ p2) as pb eqn:Epb.
  destruct (decide (q = pa)) as [Hq1|Hq1];
    destruct (decide (q = pb)) as [Hq2|Hq2].
  - assert (pa = pb) as E by congruence. subst q. destruct E.
    rewrite Eab, Eba, Ea, Eb. simpl. f_equal.
    apply insert_insert_ne. by apply Hne.
  - subst q. by rewrite (Fab _ Hq2), Ea, Eba, (Fb _ Hq2).
  - subst q. by rewrite Eab, (Fa _ Hq1), (Fba _ Hq1), Eb.
  - by rewrite (Fab _ Hq2), (Fa _ Hq1), (Fba _ Hq1), (Fb _ Hq2).
Qed.

(** X4.  A prefix with one slash at its end and the same prefix without
    it configure the same router, and a route registered afterwards goes
    under the prefix followed by the pattern, with no slash added or
    doubled. *)
Theorem SetPathPrefix_slash_same q method pattern handler s :
  ends_with_slash q = false ->
  SetPathPrefix (q +:+ "/") s = SetPathPrefix q s ∧
  ∀ s', Handle method pattern handler (SetPathPrefix (q +:+ "/") s) = Ok s' ->
        ∃ vm, verbs_of s' (q +:+ pattern) = Some vm ∧ vm !! method = Some handler.
Proof.
  intros Hq.
  assert (SetPathPrefix (q +:+ "/") s = SetPathPrefix q s) as E.
  { pose proof (SetPathPrefix_slash q s) as H1.
    pose proof (SetPathPrefix_no_slash q s Hq) as H2.
    unfold PathPrefix in *.
    destruct (SetPathPrefix_frame (q +:+ "/") s) as (A1 & A2 & A3).
    destruct (SetPathPrefix_frame q s) as (B1 & B2 & B3).
    destruct (SetPathPrefix (q +:+ "/") s), (SetPathPrefix q s).
    simpl in *. congruence. }
  split; [done|]. intros s' H.
  destruct (Handle_verbs _ _ _ _ _ H) as (vm & Hvm & Hm & _).
  exists vm. split; [|done].
  pose proof (SetPathPrefix_slash q s) as H1. unfold PathPrefix in H1.
  by rewrite H1 in Hvm.
Qed.

Lemma built_nodes_reached s :
  built s -> ∀ l, l < length (nodes s) -> ∃ p, sh_handlers s !! p = Some l.
Proof.
  induction 1 as [|method pattern handler s s' _ IH H|prefix s _ IH].
  - simpl. intros l Hl. lia.
  - apply Handle_inv in H as [(l0 & h & _ & _ & _ & ->)|(Hp & mux & _ & ->)]; simpl.
    + intros l. rewrite length_insert. apply IH.
    + intros l. rewrite length_app. simpl. intros Hl.
      destruct (decide (l = length (nodes s))) as [->|Hne].
      * eexists. apply lookup_insert_eq.
      * destruct (IH l) as [p Hpl]; [lia|]. exists p.
        rewrite lookup_insert_ne; [done|]. intros <-. congruence.
  - destruct (SetPathPrefix_frame prefix s) as (_ & -> & ->). apply IH.
Qed.

(** X24.  A router made by [NewServerHandler], [Handle] and
    [SetPathPrefix] passes a request on only to a handler that was
    registered, under some pattern, for the method of the request: a
    handler registered for one method never receives a request of
    another. *)
Theorem ServeHTTP_delegates_registered s r handler :
  built s -> ServeHTTP s r = Ok (http.Delegate handler) ->
  ∃ pattern vm, verbs_of s pattern = Some vm ∧
                vm !! http.Method r = Some handler.
Proof.
  intros Hb. unfold ServeHTTP, defaultHTTPHandler_ServeHTTP.
  destruct (http.mux_Handler (ServeMux s) r) as [l|]; [|done].
  destruct (nodes s !! l) as [h|] eqn:Hl; [|done].
  destruct (handlers h !! http.Method r) as [h0|] eqn:Hm; [|done].
  intros [= ->].
  destruct (built_nodes_reached s Hb l) as [p Hp]; [by eapply lookup_lt_Some|].
  exists p, (handlers h). split; [|done].
  unfold verbs_of. rewrite Hp. simpl. by rewrite Hl.
Qed.

End RouterMore.

Lemma ServeHTTP_delegates_registered_witness :
  ∃ pattern vm, verbs_of Demo.users2 pattern = Some vm ∧ vm !! "POST" = Some "create".
Proof.
  apply (ServeHTTP_delegates_registered Demo.users2 (Demo.POST "/users") "create").
  - apply (built_Handle "POST" "/users" "create" Demo.users1).
    + apply (built_Handle "GET" "/users" "list" Demo.router).
      * apply built_new.
      * vm_compute. reflexivity.
    + vm_compute. reflexivity.
  - vm_compute. reflexivity.
Defined.

Lemma Handle_panics_iff_witness :
  Demo.handle_ "GET" "/users" "again" Demo.users1 =
  Panic "http: multiple registrations for /users".
Proof.
  assert (router_wf Demo.users1) as Hwf.
  { apply built_wf. eapply built_Handle; [apply built_new|].
    instantiate (1 := "list"). instantiate (1 := "/users"). instantiate (1 := "GET").
    vm_compute. reflexivity. }
  apply (Handle_panics_iff "GET" "/users" "again" Demo.users1 _ Hwf).
  left. split; [|reflexivity].
  eexists _, "list". split; vm_compute; reflexivity.
Defined.

Lemma built_verbs_nonempty_witness :
  ∃ vm, verbs_of Demo.users1 "/users" = Some vm ∧ vm ≠ ∅.
Proof.
  assert (built Demo.users1) as Hb.
  { eapply built_Handle; [apply built_new|].
    instantiate (1 := "list"). instantiate (1 := "/users"). instantiate (1 := "GET").
    vm_compute. reflexivity. }
  destruct (verbs_of Demo.users1 "/users") as [vm|] eqn:E; [|vm_compute in E; discriminate].
  exists vm. split; [reflexivity|].
  apply (built_verbs_nonempty Demo.users1 "/users" vm Hb E).
Defined.

Lemma Handle_commute_witness :
  verbs_of More.users_orders "/users" = verbs_of More.orders_users "/users" ∧
  verbs_of More.users_orders "/orders" = verbs_of More.orders_users "/orders".
Proof.
  assert (router_wf Demo.router) as Hwf.
  { split; intros *; vm_compute; discriminate. }
  assert (Demo.handle_ "GET" "/users" "list" Demo.router = Ok Demo.users1) as H1
    by (vm_compute; reflexivity).
  assert (Demo.handle_ "POST" "/orders" "new" Demo.users1 = Ok More.users_orders) as H2
    by (vm_compute; reflexivity).
  assert (Demo.handle_ "POST" "/orders" "new" Demo.router = Ok More.orders1) as H3
    by (vm_compute; reflexivity).
  assert (Demo.handle_ "GET" "/users" "list" More.orders1 = Ok More.orders_users) as H4
    by (vm_compute; reflexivity).
  split.
  - apply (Handle_commute "GET" "/users" "list" "POST" "/orders" "new"
             Demo.router Demo.users1 More.users_orders More.orders1 More.orders_users
             Hwf H1 H2 H3 H4 "/users").
  - apply (Handle_commute "GET" "/users" "list" "POST" "/orders" "new"
             Demo.router Demo.users1 More.users_orders More.orders1 More.orders_users
             Hwf H1 H2 H3 H4 "/orders").
Defined.

Lemma SetPathPrefix_slash_same_witness :
  SetPathPrefix "/api/" Demo.router = SetPathPrefix "/api" Demo.router.
Proof.
  apply (SetPathPrefix_slash_same "/api" "GET" "/users" "list" Demo.router).
  reflexivity.
Defined.

(** ** Component dispatch *)

Section DispatchMore.

Context {Handler M : Type}.

Implicit Types (w : World Handler M) (env : ServerEnvironment Handler M).
Implicit Types (rh : ResourceHandler Handler M) (c : Component).

Lemma handle_all_handlers env env' cs w :
  resourceHandlers env' = resourceHandlers env ->
  handle_all env' cs w = handle_all env cs w.
Proof.
  intros E. revert w. induction cs as [|c cs IH]; intros w; [done|]. simpl.
  unfold mbind, go_bind, handle. rewrite E.
  destruct (handle_loop _ _ _ w) as [[[] w']|msg]; [apply IH | done].
Qed.

(** X5.  A resource handler added to an environment is asked before all
    the handlers that were there; when it claims the component the others
    are not asked, and when it declines the component is handled as it was
    before, from the world the new handler left.  Adding handlers in two
    calls or in one is the same, and adding handlers leaves the components
    as they are. *)
Theorem AddResourceHandler_asked_first env rh c w :
  handle (AddResourceHandler [rh] env) c w =
    (claimed ← rh_Handle rh c;
     if claimed : bool then mret tt else handle env c) w ∧
  (∀ a b, AddResourceHandler (a ++ b) env =
          AddResourceHandler b (AddResourceHandler a env)) ∧
  (∀ hs, components (AddResourceHandler hs env) = components env).
Proof.
  split; [|split].
  - rewrite handle_first_claim. simpl. rewrite reverse_snoc. simpl.
    unfold mbind, go_bind.
    destruct (rh_Handle rh c w) as [[[] w']|msg]; [done| |done].
    by rewrite handle_first_claim.
  - intros a b. unfold AddResourceHandler. simpl. by rewrite app_assoc.
  - done.
Qed.

(** X6.  Components registered by a later [Register] are dispatched after
    those registered before, by the same handlers: dispatching all the
    components of [Register cs env] is dispatching those of [env] and then
    [cs].  Registering in two calls or in one is the same, and registering
    nothing changes nothing. *)
Theorem Register_dispatch_order env cs w :
  handle_all (Register cs env) (components (Register cs env)) w =
    (_ ← handle_all env (components env); handle_all env cs) w ∧
  (∀ a b, Register b (Register a env) = Register (a ++ b) env) ∧
  Register [] env = env.
Proof.
  split; [|split].
  - rewrite (handle_all_handlers env (Register cs env)) by done.
    simpl. apply handle_all_app.
  - intros a b. unfold Register. simpl. by rewrite app_assoc.
  - destruct env as [cs0 hs]. unfold Register. simpl. by rewrite app_nil_r.
Qed.



End DispatchMore.


(** ** The managed server *)

Section ServerMore.

Context {L : Type} `{NL : NetListener L}.

Implicit Types (server : DefaultServer L) (connector : DefaultServerConnector L).
Implicit Types (received rest : list Received) (lg : list LogEntry).

Lemma run_Start_wait_take i received :
  run (Start_wait (L := L) i) received =
  run (Start_wait (L := L) i) (take i received).
Proof.
  revert received. induction i as [|i IH]; intros received; [done|].
  destruct received as [|x received]; [done|]. simpl.
  destruct x as [[e|]|[]]; try done; apply IH.
Qed.

Lemma run_Start_wait_error i received e :
  run (Start_wait (L := L) i) received = Some (Some e) ->
  FromErrorChan (Some e) ∈ take i received.
Proof.
  revert received. induction i as [|i IH]; intros received; [done|].
  destruct received as [|x received]; [done|]. simpl.
  destruct x as [[e'|]|[]]; try done.
  - intros [= ->]. apply list_elem_of_here.
  - intros H. apply list_elem_of_further. by apply IH.
  - intros H. apply list_elem_of_further. by apply IH.
Qed.

Lemma run_Start_wait_some i received :
  i ≤ length received -> is_Some (run (Start_wait (L := L) i) received).
Proof.
  revert received. induction i as [|i IH]; intros received Hlen; [by eexists|].
  destruct received as [|x received]; [simpl in Hlen; lia|]. simpl in *.
  destruct x as [[e'|]|[]]; try (by eexists); apply IH; lia.
Qed.

(** X8.  A server made from connector configurations starts one connector
    for each configuration, in the order of the configurations, each to
    listen on the address of its configuration or, when that is empty, on a
    colon followed by its type.  Adding configurations in two calls or in
    one is the same. *)
Theorem AddConnectors_started configurations server :
  spawned (Start (AddConnectors configurations server)) =
    Connectors server ++ map NewServerConnector configurations ∧
  map listen_addr (Connectors (AddConnectors (L := L) configurations NewServer)) =
    map (fun c => if String.eqb (cc_Addr c) "" then ":" +:+ cc_Type c else cc_Addr c)
        configurations ∧
  (∀ a b, AddConnectors (a ++ b) server = AddConnectors b (AddConnectors a server)).
Proof.
  split; [|split].
  - unfold Start. by rewrite spawned_Start_go, spawned_Start_wait, app_nil_r.
  - simpl. induction configurations as [|c cs IH]; [done|]. simpl. by f_equal.
  - intros a b. unfold AddConnectors. simpl. by rewrite map_app, app_assoc.
Qed.

(** X9.  [Start] receives at most as many values as there are connectors:
    what is sent after that makes no difference.  Once that many values
    have been sent it has returned.  The error it returns, if any, is one a
    connector sent among those values. *)
Theorem Start_reads_at_most server received :
  run (Start server) received =
    run (Start server) (take (length (Connectors server)) received) ∧
  (length (Connectors server) ≤ length received ->
   is_Some (run (Start server) received)) ∧
  (∀ e, run (Start server) received = Some (Some e) ->
        FromErrorChan (Some e) ∈ take (length (Connectors server)) received).
Proof.
  unfold Start. rewrite !run_Start_go. split; [|split].
  - apply run_Start_wait_take.
  - apply run_Start_wait_some.
  - intros e. apply run_Start_wait_error.
Qed.

Lemma Connector_Stop_keeps connector :
  Addr (snd (Connector_Stop connector)) = Addr connector ∧
  Type_ (snd (Connector_Stop connector)) = Type_ connector ∧
  has_listener (snd (Connector_Stop connector)) = has_listener connector ∧
  (has_listener connector = false -> fst (Connector_Stop connector) = None).
Proof.
  unfold Connector_Stop, has_listener.
  destruct (listener connector) as [ln|] eqn:E.
  - by destruct (Close ln).
  - simpl. by rewrite E.
Qed.

Lemma closing_errors_bound (cs : list (DefaultServerConnector L)) :
  length (omap (fun c => error_closing <$> fst (Connector_Stop c)) cs) ≤
  length (filter (fun c => has_listener c = true) cs).
Proof.
  induction cs as [|c cs IH]; [done|]. simpl.
  destruct (Connector_Stop_keeps c) as (_ & _ & _ & Hnone).
  rewrite filter_cons. destruct (decide (has_listener c = true)) as [E|E].
  - destruct (fst (Connector_Stop c)); simpl.
    + apply le_n_S. exact IH.
    + apply le_S. exact IH.
  - rewrite Hnone by (by destruct (has_listener c)). exact IH.
Qed.

(** X10.  [Stop] keeps the connectors, their order, their addresses and
    their types, and it does not reset a listener: a connector has a
    listener after [Stop] exactly when it had one before, so that a second
    [Stop] closes the same listeners again.  It only adds to the log, at
    most one warning for each connector that has a listener. *)
Theorem Stop_keeps server lg :
  map Addr (Connectors (Stop server lg).1.2) = map Addr (Connectors server) ∧
  map Type_ (Connectors (Stop server lg).1.2) = map Type_ (Connectors server) ∧
  map has_listener (Connectors (Stop server lg).1.2) =
    map has_listener (Connectors server) ∧
  ∃ warnings,
    (Stop server lg).2 = lg ++ warnings ∧
    Forall (fun e => level e = WARN) warnings ∧
    length warnings ≤
      length (filter (fun c => has_listener c = true) (Connectors server)).
Proof.
  rewrite Stop_spec. simpl. rewrite <- !list_fmap_compose.
  split; [|split; [|split]].
  - apply list_fmap_ext. intros i c _. apply Connector_Stop_keeps.
  - apply list_fmap_ext. intros i c _. apply Connector_Stop_keeps.
  - apply list_fmap_ext. intros i c _. apply Connector_Stop_keeps.
  - eexists. split; [done|]. split; [|apply closing_errors_bound].
    induction (Connectors server) as [|c cs IH]; [constructor|]. simpl.
    destruct (fst (Connector_Stop c)); simpl; [constructor|]; done.
Qed.

Context {Cert : Type} `{NS : NetServe L Cert}.

(** X11.  A connector that was not started never listens on an empty
    address, and after [Start] it has a listener exactly when the address
    could be bound: when it could not, [Start] returns the error of
    [net.Listen], leaves the connector and the TLS configuration as they
    were, and a [Stop] afterwards does nothing. *)
Theorem Connector_Start_listener configuration tlsConfig connector :
  listener connector = None ->
  listen_addr connector ≠ "" ∧
  (has_listener (Connector_Start configuration tlsConfig connector).1.2 = false <->
   ∃ e, Listen (listen_addr connector) = inl e) ∧
  (∀ e, Listen (listen_addr connector) = inl e ->
        Connector_Start configuration tlsConfig connector =
          (Some e, connector, tlsConfig) ∧
        Connector_Stop connector = (None, connector)).
Proof.
  intros Hnil. split; [|split].
  - unfold listen_addr. destruct (String.eqb_spec (Addr connector) ""); done.
  - unfold Connector_Start, has_listener.
    destruct (Listen (listen_addr connector)) as [e|ln]; simpl.
    + rewrite Hnil. split; [eauto | done].
    + destruct (String.eqb (Type_ connector) "https"); simpl.
      * destruct (LoadX509KeyPair _ _); simpl; split; try done; by intros [? ?].
      * split; [done | by intros [? ?]].
  - intros e He. unfold Connector_Start, Connector_Stop. by rewrite He, Hnil.
Qed.

(** X12.  When the certificate of an https connector cannot be loaded,
    [Start] returns the error of the load, but the address is bound
    already: the connector holds the TCP listener, the TLS configuration is
    as it was, and a [Stop] afterwards closes that listener. *)
Theorem Connector_Start_certificate configuration tlsConfig connector ln e :
  Type_ connector = "https" ->
  Listen (listen_addr connector) = inr ln ->
  LoadX509KeyPair (CertFile configuration) (KeyFile configuration) = inl e ->
  Connector_Start configuration tlsConfig connector =
    (Some e, with_listener ln connector, tlsConfig) ∧
  Connector_Stop (with_listener ln connector) =
    (snd (Close ln), with_listener (fst (Close ln)) connector).
Proof.
  intros Ht Hl Hc. unfold Connector_Start, Connector_Stop.
  rewrite Hl. simpl. rewrite Ht, Hc. simpl.
  split; [done|]. destruct (Close ln). unfold with_listener. simpl.
  by rewrite Ht.
Qed.

End ServerMore.

Lemma Start_reads_at_most_witness :
  is_Some (run (Start Demo.server) [FromErrorChan None; FromSigChan Kill]).
Proof.
  apply (Start_reads_at_most Demo.server [FromErrorChan None; FromSigChan Kill]).
  simpl. lia.
Defined.

Lemma Connector_Start_listener_witness :
  Connector_Start (NS := MoreServer.net) MoreServer.no_certificate None Demo.idle =
    (Some "listen tcp :8080: bind: address already in use", Demo.idle, None) ∧
  Connector_Stop (NL := TCP) Demo.idle = (None, Demo.idle).
Proof.
  apply (Connector_Start_listener (NL := TCP) (NS := MoreServer.net)
           MoreServer.no_certificate None Demo.idle); reflexivity.
Defined.

Lemma Connector_Start_certificate_witness :
  Connector_Start (NS := MoreServer.net) MoreServer.no_certificate None MoreServer.secure =
    (Some "open : no such file or directory",
     with_listener Listening MoreServer.secure, None) ∧
  Connector_Stop (NL := TCP) (with_listener Listening MoreServer.secure) =
    (None, with_listener Closed MoreServer.secure).
Proof.
  apply (Connector_Start_certificate (NL := TCP) (NS := MoreServer.net)
           MoreServer.no_certificate None MoreServer.secure Listening
           "open : no such file or directory"); reflexivity.
Defined.

(** ** The server command *)

#[local] Set Warnings "-clear-no-such-hyp".

Ltac step_in := simpl; set_solver.

Ltac steps_in :=
  split; [split; [intros H; exfalso; revert H; step_in | naive_solver]
         | split; step_in].

(** X13.  [Run] returns the error of the first collaborator that fails, in
    the order configuration, environment, server factory, bundles,
    application, start of the server, and [nil] when none fails; what
    [Server.Stop] returns is never returned, and nothing that [Run] does
    depends on it. *)
Theorem Run_returns_first_failure bootstrap :
  snd (Run bootstrap) =
    first_failure [configuredCommand_Run bootstrap; environmentCommand_Run bootstrap;
                   ServerFactory_BuildServer bootstrap; bootstrap_run bootstrap;
                   Application_Run bootstrap; Server_Start bootstrap] ∧
  ∀ stop,
    Run {| configuredCommand_Run := configuredCommand_Run bootstrap;
           environmentCommand_Run := environmentCommand_Run bootstrap;
           ServerFactory_BuildServer := ServerFactory_BuildServer bootstrap;
           bootstrap_run := bootstrap_run bootstrap;
           Application_Run := Application_Run bootstrap;
           Server_Start := Server_Start bootstrap;
           Server_Stop := stop;
           environment_Name := environment_Name bootstrap;
           readBanner := readBanner bootstrap |} = Run bootstrap.
Proof.
  destruct bootstrap as [cfg env build bundles app start stop name banner].
  simpl. split.
  - destruct cfg; [done|]. destruct env; [done|]. destruct build; [done|].
    run_steps. destruct (negb (String.eqb banner "")); simpl;
      destruct bundles; try done; destruct app; try done; by destruct start.
  - intros stop'.
    destruct cfg; [done|]. destruct env; [done|]. destruct build; [done|].
    run_steps. destruct (negb (String.eqb banner "")); simpl;
      destruct bundles; try done; destruct app; try done; by destruct start.
Qed.

(** X14.  The environment is marked starting exactly when the
    configuration, the environment, the server factory, the bundles and
    the application all succeed.  A run that marks it starting starts the
    server once and ends by stopping the server and then marking the
    environment stopped, once each; a run that does not never starts or
    stops the server and never marks the environment stopped. *)
Theorem Run_starting_is_matched bootstrap :
  (SetStarting ∈ fst (Run bootstrap) <->
   configuredCommand_Run bootstrap = None ∧ environmentCommand_Run bootstrap = None ∧
   ServerFactory_BuildServer bootstrap = None ∧ bootstrap_run bootstrap = None ∧
   Application_Run bootstrap = None) ∧
  (SetStarting ∈ fst (Run bootstrap) ->
   ∃ before served,
     fst (Run bootstrap) =
       before ++ [SetStarting; ServerStart] ++ served ++ [ServerStop; SetStopped] ∧
     (∀ x, x ∈ before ++ served ->
           x ≠ SetStarting ∧ x ≠ ServerStart ∧ x ≠ ServerStop ∧ x ≠ SetStopped)) ∧
  ((SetStarting ∉ fst (Run bootstrap)) ->
   (ServerStart ∉ fst (Run bootstrap)) ∧ (ServerStop ∉ fst (Run bootstrap)) ∧
   (SetStopped ∉ fst (Run bootstrap))).
Proof.
  destruct bootstrap as [cfg env build bundles app start stop name banner].
  simpl.
  destruct cfg; [steps_in|].
  destruct env; [steps_in|].
  destruct build; [steps_in|].
  run_steps. destruct (negb (String.eqb banner "")); simpl.
  - destruct bundles; [steps_in|].
    destruct app; [steps_in|].
    destruct start; simpl;
      (split; [split; [done | step_in]|]); (split; [|step_in]); intros _.
    + eexists [_; _; _; _; _; _], [_]. split; [reflexivity|]. intros x. step_in.
    + eexists [_; _; _; _; _; _], []. split; [reflexivity|]. intros x. step_in.
  - destruct bundles; [steps_in|].
    destruct app; [steps_in|].
    destruct start; simpl;
      (split; [split; [done | step_in]|]); (split; [|step_in]); intros _.
    + eexists [_; _; _; _; _; _], [_]. split; [reflexivity|]. intros x. step_in.
    + eexists [_; _; _; _; _; _], []. split; [reflexivity|]. intros x. step_in.
Qed.

Lemma Run_starting_is_matched_witness :
  ServerStart ∉ fst (Run {| configuredCommand_Run := None; environmentCommand_Run := None;
                            ServerFactory_BuildServer := None;
                            bootstrap_run := Some "no database";
                            Application_Run := None; Server_Start := None;
                            Server_Stop := None;
                            environment_Name := "app"; readBanner := "" |}).
Proof.
  apply Run_starting_is_matched. step_in.
Defined.

(** ** Package melon *)

Section MelonFacts.

Import melon.

Implicit Types (bootstrap : Bootstrap) (command : ConfigurationCommand).

(** X15.  [ConfigurationCommand.Run] returns [nil] exactly when the
    configuration is built without error, the validator accepts it and it
    implements [core.Configuration]; the command then holds it in both
    fields.  Whatever the outcome, the field [Configuration] holds what the
    factory returned.  Once the configuration is built and valid, the
    internal field holds what the type assertion yields, so that it is
    [nil] whenever [Run] then fails, whatever it held before; the two
    other failures leave the internal field as it was. *)
Theorem ConfigurationCommand_Run_ok_iff bootstrap command :
  ((ConfigurationCommand_Run bootstrap command).1.1 = None <->
   (ConfigurationFactory_Build bootstrap).2 = None ∧
   Validate bootstrap (ConfigurationFactory_Build bootstrap).1 = None ∧
   ∃ v, (ConfigurationFactory_Build bootstrap).1 = Some v ∧
        is_Configuration v = true) ∧
  ((ConfigurationCommand_Run bootstrap command).1.1 = None ->
   configuration (ConfigurationCommand_Run bootstrap command).1.2 =
     (ConfigurationFactory_Build bootstrap).1) ∧
  Configuration (ConfigurationCommand_Run bootstrap command).1.2 =
    (ConfigurationFactory_Build bootstrap).1 ∧
  ((ConfigurationFactory_Build bootstrap).2 = None ->
   Validate bootstrap (ConfigurationFactory_Build bootstrap).1 = None ->
   configuration (ConfigurationCommand_Run bootstrap command).1.2 =
     as_Configuration (ConfigurationFactory_Build bootstrap).1 ∧
   ((ConfigurationCommand_Run bootstrap command).1.1 ≠ None ->
    configuration (ConfigurationCommand_Run bootstrap command).1.2 = None)) ∧
  ((ConfigurationFactory_Build bootstrap).2 ≠ None ∨
   Validate bootstrap (ConfigurationFactory_Build bootstrap).1 ≠ None ->
   configuration (ConfigurationCommand_Run bootstrap command).1.2 =
     configuration command).
Proof.
  unfold ConfigurationCommand_Run.
  destruct (ConfigurationFactory_Build bootstrap) as [cfg [e|]]; simpl.
  { split; [split; [done | by intros [? _]]|]. split; [done|]. split; [done|].
    split; done. }
  destruct (Validate bootstrap cfg) as [e|]; simpl.
  { split; [split; [done | by intros (_ & ? & _)]|].
    split; [done|]. split; [done|]. split; done. }
  destruct cfg as [v|]; simpl.
  - destruct (is_Configuration v) eqn:E; simpl.
    + split; [split; [eauto | done]|]. split; [done|]. split; [done|].
      split; [done | by intros [?|?]].
    + split; [split; [done | intros (_ & _ & v' & [= <-] & ?); congruence]|].
      split; [done|]. split; [done|]. split; [done | by intros [?|?]].
  - split; [split; [done | by intros (_ & _ & v' & ? & _)]|].
    split; [done|]. split; [done|]. split; [done | by intros [?|?]].
Qed.

(** X16.  [ConfigurationCommand.Run] asks the validator only after the
    factory has succeeded, once, about what the factory returned.  An error
    of the factory is returned as it is and nothing is logged; the two
    other failures write one line at error level; success writes
    nothing. *)
Theorem ConfigurationCommand_Run_events bootstrap command :
  (∀ e, (ConfigurationFactory_Build bootstrap).2 = Some e ->
        (ConfigurationCommand_Run bootstrap command).1.1 = Some e ∧
        (ConfigurationCommand_Run bootstrap command).2 = [BuildCalled]) ∧
  ((ConfigurationFactory_Build bootstrap).2 = None ->
   ∃ logged,
     (ConfigurationCommand_Run bootstrap command).2 =
       BuildCalled :: ValidateCalled (ConfigurationFactory_Build bootstrap).1 :: logged ∧
     match (ConfigurationCommand_Run bootstrap command).1.1 with
     | None => logged = []
     | Some _ => ∃ msg, logged = [Errorf msg]
     end) ∧
  (∀ e, Validate bootstrap (ConfigurationFactory_Build bootstrap).1 = Some e ->
        (ConfigurationFactory_Build bootstrap).2 = None ->
        (ConfigurationCommand_Run bootstrap command).1.1 = Some e).
Proof.
  unfold ConfigurationCommand_Run.
  destruct (ConfigurationFactory_Build bootstrap) as [cfg [e|]]; simpl.
  { split; [by intros e' [= <-]|]. split; [done|]. done. }
  split; [done|].
  destruct (Validate bootstrap cfg) as [e|]; simpl.
  { split; [intros _; eexists; split; [done|]; eauto|]. by intros e' [= <-] _. }
  split; [|done]. intros _.
  destruct (as_Configuration cfg); simpl; eexists; split; try done; eauto.
Qed.

(** X17.  [CheckCommand.Run] returns what [ConfigurationCommand.Run]
    returns and leaves the command as that leaves it; it prints
    "Configuration is OK" exactly when it returns [nil], as the last thing
    it does. *)
Theorem CheckCommand_Run_prints_iff bootstrap command :
  (CheckCommand_Run bootstrap command).1 =
    (ConfigurationCommand_Run bootstrap command).1 ∧
  (Println "Configuration is OK" ∈ (CheckCommand_Run bootstrap command).2 <->
   (CheckCommand_Run bootstrap command).1.1 = None) ∧
  ((CheckCommand_Run bootstrap command).1.1 = None ->
   last (CheckCommand_Run bootstrap command).2 = Some (Println "Configuration is OK")).
Proof.
  unfold CheckCommand_Run, ConfigurationCommand_Run.
  destruct (ConfigurationFactory_Build bootstrap) as [cfg [e|]]; simpl.
  { split; [done|]. split; [|done]. set_solver. }
  destruct (Validate bootstrap cfg) as [e|]; simpl.
  { split; [done|]. split; [|done]. set_solver. }
  destruct (as_Configuration cfg); simpl.
  - split; [done|]. split; [|done]. set_solver.
  - split; [done|]. split; [|done]. set_solver.
Qed.

(** X18.  [Application.Name] never returns the empty string; it stores
    what it returns, so a second call returns the same and changes
    nothing; after [SetName] with a name that is not empty it returns that
    name, and after [SetName] with the empty string the default. *)
Theorem Name_never_empty (app : Application) n :
  (Name app).1 ≠ "" ∧
  name (Name app).2 = (Name app).1 ∧
  Name (Name app).2 = Name app ∧
  (n ≠ "" -> (Name (SetName n app)).1 = n ∧ (Name (SetName n app)).2 = SetName n app) ∧
  (Name (SetName "" app)).1 = "melon-app".
Proof.
  unfold Name, SetName. simpl.
  destruct (String.eqb_spec (name app) "") as [E|E]; simpl.
  - split; [done|]. split; [done|]. split; [done|]. split; [|done].
    intros Hn. by destruct (String.eqb_spec n "").
  - split; [done|]. split; [done|].
    split; [by destruct (String.eqb_spec (name app) "")|]. split; [|done].
    intros Hn. by destruct (String.eqb_spec n "").
Qed.

End MelonFacts.

(** A command that holds a configuration from an earlier run is run on a
    configuration of an unsupported type: [Run] fails and the internal
    field is [nil]. *)
Lemma ConfigurationCommand_Run_ok_iff_witness :
  (melon.ConfigurationCommand_Run MoreMelon.unsupported MoreMelon.used).1.1 ≠ None ∧
  melon.configuration
    (melon.ConfigurationCommand_Run MoreMelon.unsupported MoreMelon.used).1.2 = None ∧
  melon.configuration MoreMelon.used ≠ None.
Proof.
  destruct (ConfigurationCommand_Run_ok_iff MoreMelon.unsupported MoreMelon.used)
    as (Hiff & _ & _ & Hreset & _).
  assert ((melon.ConfigurationCommand_Run MoreMelon.unsupported MoreMelon.used).1.1 ≠ None)
    as Hfails.
  { intros H. apply Hiff in H as (_ & _ & v & Hv & Hc).
    injection Hv as <-. discriminate Hc. }
  split; [exact Hfails|]. split; [|discriminate].
  destruct (Hreset eq_refl eq_refl) as [_ Hnil]. exact (Hnil Hfails).
Defined.

Lemma ConfigurationCommand_Run_events_witness :
  ∃ msg, (melon.ConfigurationCommand_Run MoreMelon.unsupported MoreMelon.fresh).2 =
         [melon.BuildCalled; melon.ValidateCalled (Some MoreMelon.settings);
          melon.Errorf msg].
Proof.
  destruct (ConfigurationCommand_Run_events MoreMelon.unsupported MoreMelon.fresh)
    as (_ & H & _).
  destruct (H eq_refl) as (logged & -> & [msg ->]). by exists msg.
Defined.

Lemma CheckCommand_Run_prints_iff_witness :
  melon.Println "Configuration is OK" ∉
    (melon.CheckCommand_Run MoreMelon.unsupported MoreMelon.fresh).2.
Proof.
  intros H.
  apply (CheckCommand_Run_prints_iff MoreMelon.unsupported MoreMelon.fresh) in H.
  discriminate H.
Defined.

Lemma Name_never_empty_witness :
  (melon.Name (melon.SetName "shop" {| melon.name := ""; melon.app_configuration := None |})).1 =
  "shop".
Proof.
  apply (Name_never_empty {| melon.name := ""; melon.app_configuration := None |} "shop").
  discriminate.
Defined.

(** ** The request log *)

Section RequestLogFacts.

Import requestlog.

Context {FS : Type} `{R : Rotation FS}.

Implicit Types (fs : FS) (appenders : list Appender) (writers : list Writer).

Lemma build_writer_for appender fs w fs' :
  build_writer appender fs = (inr w, fs') -> writer_for appender = Some w.
Proof.
  destruct appender as [target|file archive pattern count|other]; simpl.
  - intros [= -> _]. done.
  - unfold buildFileWriter.
    destruct (Open file fs) as [[e|] fs1]; [done|].
    destruct archive; [|by intros [= <- _]].
    destruct (TriggeringPolicy_Start fs1) as [[e|] fs2]; [done|].
    by intros [= <- _].
  - done.
Qed.

Lemma build_writers_ok appenders writers fs ws fs' :
  build_writers appenders writers fs = (inr ws, fs') ->
  ∃ new, ws = writers ++ new ∧ writer_for <$> appenders = Some <$> new.
Proof.
  revert writers fs. induction appenders as [|a appenders IH]; intros writers fs; simpl.
  - intros [= <- _]. exists []. by rewrite app_nil_r.
  - destruct (build_writer a fs) as [[e|w] fs1] eqn:E; [done|]. intros H.
    destruct (IH _ _ H) as (new & -> & Hnew).
    exists (w :: new). rewrite <- app_assoc. split; [done|].
    rewrite !fmap_cons, (build_writer_for _ _ _ _ E). f_equal. exact Hnew.
Qed.

Lemma build_writers_failed appenders more writers fs e fs' :
  build_writers appenders writers fs = (inl e, fs') ->
  build_writers (appenders ++ more) writers fs = (inl e, fs').
Proof.
  revert writers fs. induction appenders as [|a appenders IH]; intros writers fs; simpl.
  - done.
  - destruct (build_writer a fs) as [[e'|w] fs1]; [done|]. apply IH.
Qed.

Lemma build_writers_console appenders writers fs :
  Forall (fun a => is_console a = true) appenders ->
  (build_writers appenders writers fs).2 = fs.
Proof.
  intros H. revert writers. induction H as [|a appenders Ha _ IH]; intros writers.
  - done.
  - destruct a as [target| |]; try done. simpl.
    destruct (buildConsoleWriter target); [done | apply IH].
Qed.

(** X19.  [buildConsoleWriter] accepts three targets: the empty string
    and "stdout", which write to the standard output, and "stderr", which
    writes to the standard error; any other target is an error that names
    it. *)
Theorem buildConsoleWriter_targets target :
  (buildConsoleWriter target = inr Stdout <-> target = "" ∨ target = "stdout") ∧
  (buildConsoleWriter target = inr Stderr <-> target = "stderr") ∧
  (target ≠ "" -> target ≠ "stdout" -> target ≠ "stderr" ->
   buildConsoleWriter target = inl ("server: unsupported appender target " +:+ target)) ∧
  (∀ w, buildConsoleWriter target = inr w -> w = Stdout ∨ w = Stderr).
Proof.
  unfold buildConsoleWriter.
  destruct (String.eqb_spec target "") as [->|H1]; simpl.
  { split; [split; [auto | done]|]. split; [done|]. split; [done|].
    intros w [= <-]. by left. }
  destruct (String.eqb_spec target "stdout") as [->|H2]; simpl.
  { split; [split; [auto | done]|]. split; [done|]. split; [done|].
    intros w [= <-]. by left. }
  destruct (String.eqb_spec target "stderr") as [->|H3]; simpl.
  { split; [split; [done | by intros [?|?]]|]. split; [done|]. split; [done|].
    intros w [= <-]. by right. }
  split; [split; [done | by intros [?|?]]|]. split; [done|]. split; done.
Qed.

(** X20.  [Build] returns neither a filter nor an error exactly when there
    are no appenders, and then it touches nothing; with appenders it
    returns an error or a filter. *)
Theorem Build_NoFilter_iff appenders fs :
  ((Build appenders fs).1 = NoFilter <-> appenders = []) ∧
  Build [] fs = (NoFilter, fs).
Proof.
  split; [|done]. split; [|by intros ->].
  unfold Build.
  destruct (build_writers appenders [] fs) as [[e|ws] fs'] eqn:E; [done|].
  destruct (build_writers_ok _ _ _ _ _ E) as (new & -> & Hnew). simpl in *.
  destruct new as [|w [|w' new]]; try done.
  intros _. by destruct appenders.
Qed.

(** X21.  [Build] stops at the first appender that cannot be built: the
    appenders after it are not looked at, so the result and the files
    opened are those of the list cut after it.  The files opened for the
    appenders before it stay open. *)
Theorem Build_stops_at_failure appenders more fs e :
  (Build appenders fs).1 = Failed e ->
  Build (appenders ++ more) fs = Build appenders fs.
Proof.
  unfold Build.
  destruct (build_writers appenders [] fs) as [[e'|ws] fs'] eqn:E.
  - intros _. by rewrite (build_writers_failed _ more _ _ _ _ E).
  - by destruct ws as [|w [|w' ws]].
Qed.

(** X22.  When [Build] returns a filter there is one writer for each
    appender, in the order of the appenders: the standard output or error
    for a console appender according to its target, the file of its name
    for a file appender, with a rolling policy of its pattern and count
    exactly when it archives.  The filter writes to that writer when there
    is one appender, and to an [io.MultiWriter] of all of them when there
    are more. *)
Theorem Build_writers_in_order appenders fs w fs' :
  Build appenders fs = (NewFilter w, fs') ->
  ∃ ws, writer_for <$> appenders = Some <$> ws ∧
        length ws = length appenders ∧
        w = match ws with
            | [w0] => w0
            | _ => MultiWriter ws
            end.
Proof.
  unfold Build.
  destruct (build_writers appenders [] fs) as [[e|ws] fs1] eqn:E; [done|].
  destruct (build_writers_ok _ _ _ _ _ E) as (new & -> & Hnew). simpl in *.
  intros H. exists new. split; [done|]. split.
  - by rewrite <- (length_fmap Some new), <- Hnew, length_fmap.
  - destruct new as [|w0 [|w1 new]]; [done| |]; by injection H as <- _.
Qed.

(** X23.  With console appenders only, [Build] opens no file: it leaves
    the file system as it is, whether it returns a filter or an error. *)
Theorem Build_console_only appenders fs :
  Forall (fun a => is_console a = true) appenders ->
  (Build appenders fs).2 = fs.
Proof.
  intros H. unfold Build.
  pose proof (build_writers_console appenders [] fs H) as E.
  destruct (build_writers appenders [] fs) as [[e|ws] fs1]; [done|].
  by destruct ws as [|w [|w' ws]].
Qed.

End RequestLogFacts.

Lemma Build_stops_at_failure_witness :
  requestlog.Build (RO := requestlog.Locked ["/var/log/b.log"])
    [requestlog.FileAppenderFactory "/var/log/a.log" false "" 0;
     requestlog.FileAppenderFactory "/var/log/b.log" false "" 0;
     requestlog.FileAppenderFactory "/var/log/c.log" false "" 0] [] =
  (requestlog.Failed "open /var/log/b.log: permission denied", ["/var/log/a.log"]).
Proof.
  etrans.
  - apply (Build_stops_at_failure (R := requestlog.Locked ["/var/log/b.log"])
             [requestlog.FileAppenderFactory "/var/log/a.log" false "" 0;
              requestlog.FileAppenderFactory "/var/log/b.log" false "" 0]
             [requestlog.FileAppenderFactory "/var/log/c.log" false "" 0] []
             "open /var/log/b.log: permission denied").
    vm_compute. reflexivity.
  - vm_compute. reflexivity.
Defined.

Lemma Build_writers_in_order_witness :
  ∃ ws, requestlog.writer_for <$>
          [requestlog.ConsoleAppenderFactory "stderr";
           requestlog.FileAppenderFactory "/var/log/a.log" true "a-%d.log" 5] =
        Some <$> ws ∧ length ws = 2.
Proof.
  destruct (Build_writers_in_order (R := requestlog.Locked [])
              [requestlog.ConsoleAppenderFactory "stderr";
               requestlog.FileAppenderFactory "/var/log/a.log" true "a-%d.log" 5] []
              (requestlog.MultiWriter
                 [requestlog.Stderr;
                  requestlog.File "/var/log/a.log" (Some ("a-%d.log", 5%Z))])
              ["/var/log/a.log"])
    as (ws & H1 & H2 & _).
  - vm_compute. reflexivity.
  - by exists ws.
Defined.

Lemma Build_console_only_witness :
  (requestlog.Build (RO := requestlog.Locked [])
     [requestlog.ConsoleAppenderFactory "stdout";
      requestlog.ConsoleAppenderFactory "syslog"] ["/var/log/open.log"]).2 =
  ["/var/log/open.log"].
Proof.
  apply (Build_console_only (R := requestlog.Locked [])).
  repeat constructor.
Defined.

Lemma buildConsoleWriter_targets_witness :
  requestlog.buildConsoleWriter "syslog" =
  inl "server: unsupported appender target syslog".
Proof.
  apply (buildConsoleWriter_targets "syslog"); discriminate.
Defined.
